(** * Secure memory buffers: the locked buffer and the secure region manager

    A shallow embedding of the two Go programs of the repository:

    - [SecureRegion]: the "Method 2" manager ([SecureMemoryManager],
      [NewSecureMemoryManager], [CopyData], [ClearSecure]) together with the
      package-level helpers [createMemoryAddressingWithRandomOffsetStruct]
      and [clearMemorySecure], then "Method 1" ([method1] and
      [createMemoryAddressingWithRandomOffset]), [method2] and [main];
    - [LockedBuffer]: the mmap/mlock backed [lockedBuffer] with
      [newLockedBuffer], [writeRandom], [copyTo], [clear] and [close],
      then [display] and the [main] that uses them.

    Go's [int] is a 64-bit integer; the lengths, offsets and the 16-bit
    random number computed below stay far away from the wrap-around, so
    [int] is [Z].  A byte is [Byte.byte].

    What the model leaves out: [make] never runs out of memory; the
    receiver of a method is passed in and returned with its new fields (on
    a panic the store reached is kept, the receiver is not); [fmt.Printf]
    records its format and the bytes shown instead of formatting them; a
    mapping has exactly the bytes asked for (the kernel rounds up to whole
    pages) and is found by its base address. *)

From Stdlib Require Import ZArith Strings.String Strings.Byte.
From stdpp Require Import base list gmap.

Local Open Scope Z_scope.

Abbreviation byte := Byte.byte.

(** ** Outcomes of a Go computation *)

(** The run-time panics the modelled code can raise. *)
Inductive RuntimeError : Type :=
  | SliceBoundsOutOfRange (hi cap : Z)   (* s[:hi] with hi outside 0..cap(s) *)
  | IndexOutOfRange (i n : Z)            (* s[i] with i outside 0..len(s)-1 *)
  | MakeSliceLenOutOfRange.              (* make([]byte, n) with n < 0 *)

(** A computation returns normally, panics, is stopped by [log.Fatal]
    (which exits the process), or is killed by a memory fault. *)
Inductive res (A : Type) : Type :=
  | Ok (a : A)
  | Panic (e : RuntimeError)
  | Exit (code : Z)
  | Fault.
Arguments Ok {A} a.
Arguments Panic {A} e.
Arguments Exit {A} code.
Arguments Fault {A}.

(** State and failure: the state reached is kept on every outcome. *)
Definition M (S A : Type) : Type := S -> res A * S.

Definition ret {S A} (a : A) : M S A := fun s => (Ok a, s).

Definition bind {S A B} (c : M S A) (k : A -> M S B) : M S B :=
  fun s =>
    match c s with
    | (Ok a, s') => k a s'
    | (Panic e, s') => (Panic e, s')
    | (Exit n, s') => (Exit n, s')
    | (Fault, s') => (Fault, s')
    end.

Definition panic {S A} (e : RuntimeError) : M S A := fun s => (Panic e, s).
Definition get {S} : M S S := fun s => (Ok s, s).
Definition modify {S} (f : S -> S) : M S unit := fun s => (Ok tt, f s).

Declare Scope go_scope.
Delimit Scope go_scope with go.
Notation "'do' x <- c ; k" := (bind c (fun x => k))
  (at level 10, x name, c at level 100, k at level 200) : go_scope.
Notation "'run' c ; k" := (bind c (fun _ => k))
  (at level 10, c at level 100, k at level 200) : go_scope.

(** [for i := lo; i < lo + n; i++ { body i }] *)
Fixpoint for_loop {S} (n : nat) (lo : Z) (body : Z -> M S unit) : M S unit :=
  match n with
  | O => ret tt
  | S n' => bind (body lo) (fun _ => for_loop n' (lo + 1) body)
  end.

(** ** Byte arrays *)

(** Overwrite [l] from index [off] on with the bytes [bs]. *)
Definition write_at (off : nat) (bs l : list byte) : list byte :=
  take off l ++ bs ++ drop (off + length bs) l.

(** The zero loop of both programs on one array: [m] single-byte zero
    stores from index [i] on. *)
Fixpoint zero_from (m i : nat) (l : list byte) : list byte :=
  match m with
  | O => l
  | S m' => zero_from m' (S i) (write_at i [x00] l)
  end.

(** ** The secure region manager (Method 2) *)

Module SecureRegion.

Local Open Scope go_scope.

(** A Go slice: a view [off, off + len) into the array [arr] of the heap,
    extensible up to [off + cap). *)
Record slice : Type := {
  s_arr : nat;
  s_off : Z;
  s_len : Z;
  s_cap : Z;
}.

(** A line written by [fmt.Printf]: the format and the bytes it shows. *)
Inductive Output : Type := Printed (format : string) (arg : list byte).

(** The heap of byte arrays, the random source behind [crypto/rand] and
    the standard output.  [entropy k n] is what the [k]-th call of
    [rand.Read] delivers when asked for [n] bytes; fewer than [n] bytes
    is a failed read.  [reads] logs the sizes asked for, latest first. *)
Record Store : Type := {
  arrays : list (list byte);
  entropy : nat -> nat -> list byte;
  reads : list nat;
  stdout : list Output;
}.

Definition set_arrays (f : list (list byte) -> list (list byte)) (st : Store) : Store :=
  {| arrays := f (arrays st); entropy := entropy st;
     reads := reads st; stdout := stdout st |}.

Definition log_read (n : nat) (st : Store) : Store :=
  {| arrays := arrays st; entropy := entropy st;
     reads := n :: reads st; stdout := stdout st |}.

Definition log_output (o : Output) (st : Store) : Store :=
  {| arrays := arrays st; entropy := entropy st;
     reads := reads st; stdout := stdout st ++ [o] |}.

Definition byte_at (st : Store) (a j : nat) : option byte :=
  match arrays st !! a with
  | Some l => l !! j
  | None => None
  end.

(** The bytes a slice shows. *)
Definition contents (st : Store) (s : slice) : list byte :=
  match arrays st !! s_arr s with
  | Some l => take (Z.to_nat (s_len s)) (drop (Z.to_nat (s_off s)) l)
  | None => []
  end.

(** Write [bs] at the start of the slice [s]. *)
Definition store_bytes (s : slice) (bs : list byte) (st : Store) : Store :=
  set_arrays (alter (write_at (Z.to_nat (s_off s)) bs) (s_arr s)) st.

(** [make([]byte, n)] *)
Definition make (n : Z) : M Store slice :=
  fun st =>
    if n <? 0 then (Panic MakeSliceLenOutOfRange, st)
    else (Ok {| s_arr := length (arrays st); s_off := 0; s_len := n; s_cap := n |},
          set_arrays (fun hp => hp ++ [replicate (Z.to_nat n) x00]) st).

(** [s[:hi]] *)
Definition slice_to (s : slice) (hi : Z) : M Store slice :=
  if (0 <=? hi) && (hi <=? s_cap s)
  then ret {| s_arr := s_arr s; s_off := s_off s; s_len := hi; s_cap := s_cap s |}
  else panic (SliceBoundsOutOfRange hi (s_cap s)).

(** [s[lo:]] *)
Definition slice_from (s : slice) (lo : Z) : M Store slice :=
  if (0 <=? lo) && (lo <=? s_len s)
  then ret {| s_arr := s_arr s; s_off := s_off s + lo;
              s_len := s_len s - lo; s_cap := s_cap s - lo |}
  else panic (SliceBoundsOutOfRange lo (s_len s)).

(** [s[i]] *)
Definition index_get (s : slice) (i : Z) : M Store byte :=
  fun st =>
    if (0 <=? i) && (i <? s_len s)
    then (Ok (default x00 (byte_at st (s_arr s) (Z.to_nat (s_off s + i)))), st)
    else (Panic (IndexOutOfRange i (s_len s)), st).

(** [s[i] = v] *)
Definition index_set (s : slice) (i : Z) (v : byte) : M Store unit :=
  if (0 <=? i) && (i <? s_len s)
  then modify (set_arrays (alter (write_at (Z.to_nat (s_off s + i)) [v]) (s_arr s)))
  else panic (IndexOutOfRange i (s_len s)).

(** [copy(dst, src)]: the source is read whole before the destination is
    written (Go's copy is overlap-safe), so it is passed by its bytes. *)
Definition copy (dst : slice) (src : list byte) : M Store Z :=
  fun st =>
    let n := Z.min (s_len dst) (Z.of_nat (length src)) in
    (Ok n, store_bytes dst (take (Z.to_nat n) src) st).

(** [rand.Read(s)]: the delivered bytes land at the start of [s]; the
    result is [true] when the read failed ([err != nil]). *)
Definition rand_Read (s : slice) : M Store bool :=
  fun st =>
    let n := Z.to_nat (s_len s) in
    let got := take n (entropy st (length (reads st)) n) in
    (Ok (length got <? n)%nat, store_bytes s got (log_read n st)).

(** [fmt.Printf(format, s)] *)
Definition Printf (format : string) (s : slice) : M Store unit :=
  fun st => (Ok tt, log_output (Printed format (contents st s)) st).

(** [fmt.Println(s)] *)
Definition Println (s : string) : M Store unit :=
  fun st => (Ok tt, log_output (Printed s []) st).

(** [fmt.Printf(format, s)] for a [%p] verb: the address of the first
    element is printed; the line is recorded without it. *)
Definition Printf_pointer (format : string) (s : slice) : M Store unit :=
  fun st => (Ok tt, log_output (Printed format []) st).

(** [log.Fatal]: exits the process with status 1. *)
Definition log_Fatal {A} : M Store A := fun st => (Exit 1, st).

Definition int_of_byte (b : byte) : Z := Z.of_N (Byte.to_N b).

(** [clearMemorySecure(mem, length)] *)
Definition clearMemorySecure (mem : slice) (length : Z) : M Store unit :=
  run for_loop 10 0 (fun _ => do target <- slice_to mem length;
                               do _ <- rand_Read target; ret tt);
  for_loop (Z.to_nat length) 0 (fun i => index_set mem i x00).

(** [createMemoryAddressingWithRandomOffsetStruct(buffer)] *)
Definition createMemoryAddressingWithRandomOffsetStruct (buffer : slice) : M Store slice :=
  if s_len buffer <? 256 then ret buffer
  else
    do offsetBytes <- make 2;
    do _ <- rand_Read offsetBytes;
    let maxOffset := s_len buffer - 128 in
    do b0 <- index_get offsetBytes 0;
    do b1 <- index_get offsetBytes 1;
    let offset := Z.rem (Z.lor (Z.shiftl (int_of_byte b0) 8) (int_of_byte b1)) maxOffset in
    let offset := if offset <? 64 then 64 else offset in
    let offset := if offset >? maxOffset - 64 then maxOffset - 64 else offset in
    slice_from buffer offset.

Record SecureMemoryManager : Type := {
  baseBuffer : slice;
  workingMemory : slice;
  bufferSize : Z;
  dataLength : Z;
}.

Definition set_dataLength (n : Z) (sm : SecureMemoryManager) : SecureMemoryManager :=
  {| baseBuffer := baseBuffer sm; workingMemory := workingMemory sm;
     bufferSize := bufferSize sm; dataLength := n |}.

(** [NewSecureMemoryManager(bufferSize)] *)
Definition NewSecureMemoryManager (size : Z) : M Store SecureMemoryManager :=
  do base <- make size;
  do working <- createMemoryAddressingWithRandomOffsetStruct base;
  do err <- rand_Read working;
  run (if err : bool then log_Fatal else ret tt);
  do head <- slice_to working 16;
  run Printf "1. Only working memory filled with random (first 16 bytes): %x\n" head;
  ret {| baseBuffer := base; workingMemory := working;
         bufferSize := size; dataLength := 0 |}.

(** [sm.CopyData(data)]; the receiver is returned with its new fields. *)
Definition CopyData (sm : SecureMemoryManager) (data : list byte) : M Store SecureMemoryManager :=
  do dst <- slice_to (workingMemory sm) (Z.of_nat (length data));
  do _ <- copy dst data;
  let sm := set_dataLength (Z.of_nat (length data)) sm in
  do shown <- slice_to (workingMemory sm) (Z.of_nat (length data));
  run Printf "2. Copied data to secure memory: %s\n" shown;
  ret sm.

(** [sm.ClearSecure()] *)
Definition ClearSecure (sm : SecureMemoryManager) : M Store SecureMemoryManager :=
  do sm <- (if dataLength sm >? 0
            then run clearMemorySecure (workingMemory sm) (dataLength sm);
                 ret (set_dataLength 0 sm)
            else ret sm);
  do head <- slice_to (workingMemory sm) 16;
  run Printf "3. Cleared only working memory (first 16 bytes): %x\n" head;
  ret sm.

(** [method2()] *)
Definition method2 : M Store unit :=
  run Println "\n=== Method 2: One Clearing Operation ===";
  do memManager <- NewSecureMemoryManager 2048;
  let data := list_byte_of_string "highly sensitive information" in
  do memManager <- CopyData memManager data;
  do _ <- ClearSecure memManager;
  ret tt.

(** *** Well-formed slices and managers *)

(** A slice lies inside its array. *)
Definition valid (st : Store) (s : slice) : bool :=
  (0 <=? s_off s) && (0 <=? s_len s) && (s_len s <=? s_cap s) &&
  match arrays st !! s_arr s with
  | Some l => s_off s + s_cap s <=? Z.of_nat (length l)
  | None => false
  end.

(** What [NewSecureMemoryManager] establishes and the methods keep: the
    working memory is the tail [baseBuffer[offset:]] of the base buffer,
    it has at least the 16 bytes the progress lines print, and
    [dataLength] bytes fit in it. *)
Definition manager_ok (sm : SecureMemoryManager) (st : Store) : bool :=
  valid st (baseBuffer sm) && valid st (workingMemory sm) &&
  (s_arr (workingMemory sm) =? s_arr (baseBuffer sm))%nat &&
  (s_off (baseBuffer sm) <=? s_off (workingMemory sm)) &&
  (s_off (workingMemory sm) + s_len (workingMemory sm) =?
   s_off (baseBuffer sm) + s_len (baseBuffer sm)) &&
  (s_cap (workingMemory sm) =? s_len (workingMemory sm)) &&
  (16 <=? s_len (workingMemory sm)) &&
  (0 <=? dataLength sm) && (dataLength sm <=? s_len (workingMemory sm)).

(** The states a manager goes through: it is created, written to and
    cleared. *)
Inductive reachable : SecureMemoryManager -> Store -> Prop :=
  | reach_new size st0 sm st :
      NewSecureMemoryManager size st0 = (Ok sm, st) -> reachable sm st
  | reach_copy sm st data sm' st' :
      reachable sm st -> CopyData sm data st = (Ok sm', st') -> reachable sm' st'
  | reach_clear sm st sm' st' :
      reachable sm st -> ClearSecure sm st = (Ok sm', st') -> reachable sm' st'.

(** The window of the manager inside its backing array, as indices. *)
Definition window_lo (sm : SecureMemoryManager) : nat :=
  Z.to_nat (s_off (workingMemory sm)).
Definition window_hi (sm : SecureMemoryManager) : nat :=
  Z.to_nat (s_off (workingMemory sm) + s_len (workingMemory sm)).
Definition in_window (sm : SecureMemoryManager) (a j : nat) : Prop :=
  a = s_arr (workingMemory sm) /\ (window_lo sm <= j < window_hi sm)%nat.

(** Unused bytes of the backing region before and after a window. *)
Definition slack_before (buffer window : slice) : Z :=
  s_off window - s_off buffer.
Definition slack_after (buffer window : slice) : Z :=
  (s_off buffer + s_len buffer) - (s_off window + s_len window).

(** *** The two loops of [clearMemorySecure] on one array *)

(** [k] random passes of [n] bytes at [off], the first being call [call]. *)
Fixpoint passes (ent : nat -> nat -> list byte) (off n : nat)
    (k call : nat) (l : list byte) : list byte :=
  match k with
  | O => l
  | S k' => passes ent off n k' (S call) (write_at off (take n (ent call n)) l)
  end.

(** The store [clearMemorySecure(mem, length)] ends in. *)
Definition cleared (mem : slice) (length : Z) (st : Store) : Store :=
  {| arrays := alter (write_at (Z.to_nat (s_off mem))
                        (replicate (Z.to_nat length) x00)) (s_arr mem) (arrays st);
     entropy := entropy st;
     reads := replicate 10 (Z.to_nat length) ++ reads st;
     stdout := stdout st |}.

(** *** A manager over a 16-byte region, for examples *)

Definition demo_store : Store :=
  {| arrays := [replicate 16 x00];
     entropy := fun k n => replicate n xa5;
     reads := [];
     stdout := [] |}.

Definition demo_manager : SecureMemoryManager :=
  {| baseBuffer := {| s_arr := 0; s_off := 0; s_len := 16; s_cap := 16 |};
     workingMemory := {| s_arr := 0; s_off := 0; s_len := 16; s_cap := 16 |};
     bufferSize := 16;
     dataLength := 0 |}.

Definition demo_data : list byte := list_byte_of_string "sixteen byte key".

(** *** A 2048-byte backing region, as in [method2] *)

Definition empty_store : Store :=
  {| arrays := []; entropy := fun k n => replicate n xa5;
     reads := []; stdout := [] |}.

Definition wide_store : Store :=
  {| arrays := [replicate 2048 x00]; entropy := fun k n => replicate n xa5;
     reads := []; stdout := [] |}.

Definition wide_buffer : slice :=
  {| s_arr := 0; s_off := 0; s_len := 2048; s_cap := 2048 |}.

(** *** Method 1 and the program *)

(** [createMemoryAddressingWithRandomOffset(buffer)] *)
Definition createMemoryAddressingWithRandomOffset (buffer : slice) : M Store slice :=
  let maxOffset := s_len buffer - 100 in
  do offset <- (if maxOffset >? 0
                then do offsetBytes <- make 1;
                     do _ <- rand_Read offsetBytes;
                     do b0 <- index_get offsetBytes 0;
                     ret (Z.rem (int_of_byte b0) maxOffset)
                else ret 0);
  slice_from buffer offset.

(** [method1()] *)
Definition method1 : M Store unit :=
  run Println "=== Method 1: Two Clearing Operations ===";
  let bufferSize := 1024 in
  do hiddenBuffers <- make bufferSize;
  do err <- rand_Read hiddenBuffers;
  run (if err : bool then log_Fatal else ret tt);
  do head <- slice_to hiddenBuffers 16;
  run Printf "1. Entire buffer filled with random (first 16 bytes): %x\n" head;
  do memoryAddress <- createMemoryAddressingWithRandomOffset hiddenBuffers;
  run Printf_pointer "2. Created memory address with offset: %p\n" memoryAddress;
  let dataToCopy := list_byte_of_string "sensitive data that needs protection" in
  do dst <- slice_to memoryAddress (Z.of_nat (length dataToCopy));
  do _ <- copy dst dataToCopy;
  do shown <- slice_to memoryAddress (Z.of_nat (length dataToCopy));
  run Printf "3. Copied data: %s\n" shown;
  run clearMemorySecure hiddenBuffers (s_len hiddenBuffers);
  do head <- slice_to hiddenBuffers 16;
  run Printf "4. Cleared entire original buffer (first 16): %x\n" head;
  run clearMemorySecure memoryAddress (Z.of_nat (length dataToCopy));
  do head <- slice_to memoryAddress 16;
  run Printf "5. Cleared working memory again (first 16): %x\n" head;
  ret tt.

(** [main()] *)
Definition main : M Store unit :=
  run method1;
  run method2;
  run Println "\n=== Key Difference Summary ===";
  run Println "Method 1: Clears 2x - entire buffer + working memory";
  run Println "Method 2: Clears 1x  - only working memory (more efficient)";
  Println "Method 2 is more efficient because it only touches the memory that actually contains sensitive data!".

(** The random source hands out every byte asked for. *)
Definition delivers (st : Store) : Prop :=
  forall k n, (n <= length (entropy st k n))%nat.



End SecureRegion.

(** ** The locked buffer *)

Module LockedBuffer.

Local Open Scope go_scope.

(** [unsafe.Pointer]: the base address of a mapping. *)
Abbreviation pointer := nat.

(** An anonymous private mapping: its bytes and whether it is pinned. *)
Record Mapping : Type := {
  m_bytes : list byte;
  m_locked : bool;
}.

(** The system calls made, with their results. *)
Inductive Syscall : Type :=
  | SysMmap (size : Z) (result : option pointer)
  | SysMlock (p : pointer) (ok : bool)
  | SysMunlock (p : pointer) (ok : bool)
  | SysMunmap (p : pointer) (released : option (list byte)).

(** The process: its mappings, the calls made so far (latest first), and
    the two things outside its control: [denied k] tells whether the
    kernel refuses the [k]-th call for lack of resources, and [entropy]
    is the random source, as for the manager. *)
Record OS : Type := {
  mappings : gmap pointer Mapping;
  trace : list Syscall;
  denied : nat -> bool;
  entropy : nat -> nat -> list byte;
  reads : list nat;
}.

Definition set_mappings (f : gmap pointer Mapping -> gmap pointer Mapping) (os : OS) : OS :=
  {| mappings := f (mappings os); trace := trace os; denied := denied os;
     entropy := entropy os; reads := reads os |}.

Definition log_call (c : Syscall) (os : OS) : OS :=
  {| mappings := mappings os; trace := c :: trace os; denied := denied os;
     entropy := entropy os; reads := reads os |}.

Definition log_read (n : nat) (os : OS) : OS :=
  {| mappings := mappings os; trace := trace os; denied := denied os;
     entropy := entropy os; reads := n :: reads os |}.

Definition set_bytes (bs : list byte) (m : Mapping) : Mapping :=
  {| m_bytes := bs; m_locked := m_locked m |}.

Definition set_locked (b : bool) (m : Mapping) : Mapping :=
  {| m_bytes := m_bytes m; m_locked := b |}.

(** [syscall.Mmap(-1, 0, length, PROT_READ|PROT_WRITE, MAP_ANON|MAP_PRIVATE)]:
    the wrapper rejects [length <= 0] itself; otherwise the kernel either
    refuses or hands out a fresh zero-filled mapping.  [None] is [err != nil]. *)
Definition Mmap (length : Z) : M OS (option pointer) :=
  fun os =>
    if length <=? 0 then (Ok None, log_call (SysMmap length None) os)
    else if denied os (List.length (trace os))
    then (Ok None, log_call (SysMmap length None) os)
    else
      let p := fresh (dom (mappings os)) in
      (Ok (Some p),
       log_call (SysMmap length (Some p))
         (set_mappings
            (insert p {| m_bytes := replicate (Z.to_nat length) x00;
                         m_locked := false |}) os)).

(** [syscall.Mlock(b)] on the [length] bytes at [p]; [true] is [err != nil]. *)
Definition Mlock (p : pointer) (length : Z) : M OS bool :=
  fun os =>
    match mappings os !! p with
    | Some m =>
        if denied os (List.length (trace os))
        then (Ok true, log_call (SysMlock p false) os)
        else (Ok false, log_call (SysMlock p true)
                          (set_mappings (insert p (set_locked true m)) os))
    | None => (Ok true, log_call (SysMlock p false) os)
    end.

(** [syscall.Munlock(b)] *)
Definition Munlock (p : pointer) (length : Z) : M OS bool :=
  fun os =>
    match mappings os !! p with
    | Some m => (Ok false, log_call (SysMunlock p true)
                             (set_mappings (insert p (set_locked false m)) os))
    | None => (Ok true, log_call (SysMunlock p false) os)
    end.

(** [syscall.Munmap(data)] with [data] the [length] bytes at [p]: the
    wrapper only releases a mapping it handed out, given back whole. *)
Definition Munmap (p : pointer) (length : Z) : M OS bool :=
  fun os =>
    match mappings os !! p with
    | Some m =>
        if (0 <? length) && (Z.of_nat (List.length (m_bytes m)) =? length)
        then (Ok false, log_call (SysMunmap p (Some (m_bytes m)))
                          (set_mappings (delete p) os))
        else (Ok true, log_call (SysMunmap p None) os)
    | None => (Ok true, log_call (SysMunmap p None) os)
    end.

(** Reading [n] bytes at [p]: a fault unless they are mapped. *)
Definition load (p : pointer) (n : Z) : M OS (list byte) :=
  fun os =>
    if n <=? 0 then (Ok [], os)
    else match mappings os !! p with
         | Some m =>
             if n <=? Z.of_nat (List.length (m_bytes m))
             then (Ok (take (Z.to_nat n) (m_bytes m)), os)
             else (Fault, os)
         | None => (Fault, os)
         end.

(** Writing [bs] at offset [i] of [p]: a fault unless the bytes are mapped. *)
Definition store (p : pointer) (i : Z) (bs : list byte) : M OS unit :=
  fun os =>
    match bs with
    | [] => (Ok tt, os)
    | _ =>
        match mappings os !! p with
        | Some m =>
            if (0 <=? i) && (i + Z.of_nat (List.length bs) <=? Z.of_nat (List.length (m_bytes m)))
            then (Ok tt, set_mappings
                           (insert p (set_bytes (write_at (Z.to_nat i) bs (m_bytes m)) m)) os)
            else (Fault, os)
        | None => (Fault, os)
        end
    end.

Record lockedBuffer : Type := {
  addr : pointer;
  size : Z;
  locked : bool;
}.

(** [newLockedBuffer(size)]; [None] is the [nil] result. *)
Definition newLockedBuffer (size : Z) : M OS (option lockedBuffer) :=
  do data <- Mmap size;
  match data with
  | None => ret None
  | Some p =>
      let buf := {| addr := p; size := size; locked := false |} in
      do err <- Mlock (addr buf) size;
      if err : bool
      then run Munmap p size; ret None
      else ret (Some {| addr := addr buf; size := size; locked := true |})
  end.

(** [b.writeRandom()]; [true] is [err != nil]. *)
Definition writeRandom (b : lockedBuffer) : M OS bool :=
  do os <- get;
  let n := Z.to_nat (size b) in
  let got := take n (entropy os (List.length (reads os)) n) in
  run modify (log_read n);
  run store (addr b) 0 got;
  ret (List.length got <? n)%nat.

(** [b.copyTo(dest)] *)
Definition copyTo (b dest : lockedBuffer) : M OS unit :=
  if negb (size b =? size dest) then ret tt
  else
    do src <- load (addr b) (size b);
    store (addr dest) 0 src.

(** [b.clear()] *)
Definition clear (b : lockedBuffer) : M OS unit :=
  for_loop (Z.to_nat (size b)) 0 (fun i => store (addr b) i [x00]).

(** [b.close()] *)
Definition close (b : lockedBuffer) : M OS unit :=
  run (if locked b then do _ <- Munlock (addr b) (size b); ret tt else ret tt);
  run clear b;
  do _ <- Munmap (addr b) (size b);
  ret tt.

(** *** Live buffers *)

(** A buffer as [newLockedBuffer] returns it: [size > 0] bytes are mapped
    at [addr]. *)
Definition live (b : lockedBuffer) (os : OS) : bool :=
  match mappings os !! addr b with
  | Some m => (0 <? size b) && (Z.of_nat (List.length (m_bytes m)) =? size b)
  | None => false
  end.

(** The bytes of the region of a buffer, if it is mapped. *)
Definition region (b : lockedBuffer) (os : OS) : option (list byte) :=
  m_bytes <$> mappings os !! addr b.

(** *** Three buffers, for examples *)

Definition demo_os : OS :=
  {| mappings :=
       <[0%nat := {| m_bytes := [xd9; xc3; x56; x64]; m_locked := true |}]>
       (<[1%nat := {| m_bytes := [x00; x00; x00; x00]; m_locked := true |}]>
       (<[2%nat := {| m_bytes := replicate 8 x11; m_locked := true |}]> ∅));
     trace := [];
     denied := fun _ => false;
     entropy := fun k n => replicate n xa5;
     reads := [] |}.

Definition buffer1 : lockedBuffer := {| addr := 0; size := 4; locked := true |}.
Definition buffer2 : lockedBuffer := {| addr := 1; size := 4; locked := true |}.
Definition buffer3 : lockedBuffer := {| addr := 2; size := 8; locked := true |}.

(** A process with nothing mapped, whose second call the kernel refuses. *)
Definition stingy_os : OS :=
  {| mappings := ∅; trace := [];
     denied := fun k => Nat.eqb k 1;
     entropy := fun k n => replicate n xa5;
     reads := [] |}.

(** A process with nothing mapped, to which the kernel refuses everything. *)
Definition starved_os : OS :=
  {| mappings := ∅; trace := [];
     denied := fun _ => true;
     entropy := fun k n => replicate n xa5;
     reads := [] |}.

(** *** The demonstration program *)

(** What the program writes to its standard output. *)
Inductive Line : Type :=
  | Text (s : string)                      (* fmt.Println(s) *)
  | Header (label : string) (p : pointer)  (* fmt.Printf("%s - Addr: %p | Data: ", ..) *)
  | Hex (b : byte).                        (* fmt.Printf("%02x ", slice[i]) *)

(** The process together with its standard output. *)
Record Process : Type := {
  kernel : OS;
  console : list Line;
}.

(** An operation on the memory of the process, run inside the program. *)
Definition sys {A} (c : M OS A) : M Process A :=
  fun pr =>
    let (r, os') := c (kernel pr) in
    (r, {| kernel := os'; console := console pr |}).

Definition print (l : Line) : M Process unit :=
  fun pr => (Ok tt, {| kernel := kernel pr; console := console pr ++ [l] |}).

(** [log.Fatal]: exits the process with status 1; deferred calls do not run. *)
Definition log_Fatal {A} : M Process A := fun pr => (Exit 1, pr).

(** [defer d] in front of [body]: [d] runs when [body] returns or panics,
    not when the process exits or is killed. *)
Definition deferred {S A} (d : M S unit) (body : M S A) : M S A :=
  fun s =>
    match body s with
    | (Ok a, s') => bind d (fun _ => ret a) s'
    | (Panic e, s') =>
        match d s' with
        | (Ok _, s'') => (Panic e, s'')
        | (Panic e', s'') => (Panic e', s'')
        | (Exit n, s'') => (Exit n, s'')
        | (Fault, s'') => (Fault, s'')
        end
    | (Exit n, s') => (Exit n, s')
    | (Fault, s') => (Fault, s')
    end.

(** Reading the byte at offset [i] of [p]: a fault unless it is mapped. *)
Definition load_byte (p : pointer) (i : Z) : M OS byte :=
  fun os =>
    match mappings os !! p with
    | Some m =>
        if 0 <=? i
        then match m_bytes m !! Z.to_nat i with
             | Some x => (Ok x, os)
             | None => (Fault, os)
             end
        else (Fault, os)
    | None => (Fault, os)
    end.

(** [b.display(label)] *)
Definition display (b : lockedBuffer) (label : string) : M Process unit :=
  run print (Header label (addr b));
  run for_loop (Z.to_nat (size b)) 0
        (fun i => do x <- sys (load_byte (addr b) i); print (Hex x));
  print (Text "").

(** [main()] *)
Definition main : M Process unit :=
  run print (Text "=== Secure Memory with Escape Analysis Considerations ===");
  let size := 16 in
  do buf1 <- sys (newLockedBuffer size);
  match buf1 with
  | None => log_Fatal
  | Some buf1 =>
      deferred (sys (close buf1))
        (do buf2 <- sys (newLockedBuffer size);
         match buf2 with
         | None => log_Fatal
         | Some buf2 =>
             deferred (sys (close buf2))
               (run print (Text "\n1. Initial random data in Buffer 1:");
                do err <- sys (writeRandom buf1);
                run (if err : bool then log_Fatal else ret tt);
                run display buf1 "Buffer 1";
                run display buf2 "Buffer 2";
                run print (Text "\n2. After copying to Buffer 2:");
                run sys (copyTo buf1 buf2);
                run display buf1 "Buffer 1";
                run display buf2 "Buffer 2";
                run print (Text "\n3. After random fill both:");
                do _ <- sys (writeRandom buf1);
                do _ <- sys (writeRandom buf2);
                run display buf1 "Buffer 1";
                run display buf2 "Buffer 2";
                print (Text "\n=== Complete ==="))
         end)
  end.

(** A process with nothing mapped and a kernel that refuses nothing. *)
Definition quiet_os : OS :=
  {| mappings := ∅; trace := [];
     denied := fun _ => false;
     entropy := fun k n => replicate n xa5;
     reads := [] |}.


(** Two regions of 16 bytes are mapped at [p1] and [p2], every other
    mapping is as in [base], and the calls made are [T]. *)
Definition both_mapped (p1 p2 : pointer) (base : gmap pointer Mapping)
    (T : list Syscall) (os : OS) : Prop :=
  (exists m1, mappings os !! p1 = Some m1 /\ List.length (m_bytes m1) = 16%nat) /\
  (exists m2, mappings os !! p2 = Some m2 /\ List.length (m_bytes m2) = 16%nat) /\
  (forall p, p <> p1 -> p <> p2 -> mappings os !! p = base !! p) /\
  trace os = T.


End LockedBuffer.

(** * Properties *)

(** ** Sequencing *)

Lemma bind_Ok {S A B} (c : M S A) (k : A -> M S B) s a s' :
  c s = (Ok a, s') -> bind c k s = k a s'.
Proof. intros H. unfold bind. rewrite H. reflexivity. Qed.

(** ** Byte arrays *)

Lemma length_write_at off bs (l : list byte) :
  (off + length bs <= length l)%nat -> length (write_at off bs l) = length l.
Proof.
  intros H. unfold write_at.
  rewrite !length_app, length_take, length_drop. lia.
Qed.

Lemma lookup_write_at_in off bs (l : list byte) j :
  (off + length bs <= length l)%nat ->
  (off <= j < off + length bs)%nat ->
  write_at off bs l !! j = bs !! (j - off)%nat.
Proof.
  intros Hb Hj. unfold write_at.
  rewrite lookup_app_r by (rewrite length_take; lia).
  rewrite length_take, Nat.min_l by lia.
  apply lookup_app_l. lia.
Qed.

Lemma lookup_write_at_out off bs (l : list byte) j :
  (off + length bs <= length l)%nat ->
  ~ (off <= j < off + length bs)%nat ->
  write_at off bs l !! j = l !! j.
Proof.
  intros Hb Hj. unfold write_at.
  destruct (decide (j < off)%nat) as [Hlt|Hge].
  - rewrite lookup_app_l by (rewrite length_take; lia).
    apply lookup_take_lt. lia.
  - rewrite lookup_app_r by (rewrite length_take; lia).
    rewrite length_take, Nat.min_l by lia.
    rewrite lookup_app_r by lia.
    rewrite lookup_drop. f_equal. lia.
Qed.

Lemma write_at_nil off (l : list byte) : write_at off [] l = l.
Proof.
  unfold write_at. simpl. rewrite Nat.add_0_r. apply take_drop.
Qed.

(** A block of [cs] written over a list that differs from [l] only under
    the block leaves no trace of the difference. *)
Lemma write_at_cover off cs (l l' : list byte) :
  length l' = length l ->
  (forall j, ~ (off <= j < off + length cs)%nat -> l' !! j = l !! j) ->
  (off + length cs <= length l)%nat ->
  write_at off cs l' = write_at off cs l.
Proof.
  intros Hlen Hout Hb. apply list_eq. intros j.
  destruct (decide (off <= j < off + length cs)%nat) as [Hin|Hnot].
  - rewrite !lookup_write_at_in by lia. reflexivity.
  - rewrite !lookup_write_at_out by lia. auto.
Qed.

Lemma write_at_cons i x bs (l : list byte) :
  (i + S (length bs) <= length l)%nat ->
  write_at (S i) bs (write_at i [x] l) = write_at i (x :: bs) l.
Proof.
  intros Hb. apply list_eq. intros j.
  assert (Hl : length (write_at i [x] l) = length l)
    by (apply length_write_at; simpl; lia).
  destruct (decide (S i <= j < S i + length bs)%nat) as [Hin|Hnot].
  - rewrite lookup_write_at_in by lia.
    rewrite lookup_write_at_in by (simpl; lia).
    replace (j - i)%nat with (S (j - S i)) by lia. reflexivity.
  - rewrite lookup_write_at_out by lia.
    destruct (decide (j = i)) as [->|Hne].
    + rewrite !lookup_write_at_in by (simpl; lia).
      rewrite Nat.sub_diag. reflexivity.
    + rewrite !lookup_write_at_out by (simpl; lia). reflexivity.
Qed.

Lemma zero_from_block m i (l : list byte) :
  (i + m <= length l)%nat -> zero_from m i l = write_at i (replicate m x00) l.
Proof.
  revert i l. induction m as [|m IH]; intros i l Hb; simpl.
  - symmetry. apply write_at_nil.
  - rewrite IH by (rewrite length_write_at; simpl; lia).
    apply write_at_cons. rewrite length_replicate. lia.
Qed.

Lemma write_at_whole bs (l : list byte) :
  List.length bs = List.length l -> write_at 0 bs l = bs.
Proof.
  intros H. unfold write_at. cbn [take app Nat.add].
  rewrite drop_ge by lia. apply app_nil_r.
Qed.

Module SecureRegionFacts.
Import SecureRegion.

Local Open Scope go_scope.

Ltac unbool :=
  repeat match goal with
  | H : _ && _ = true |- _ => apply andb_prop in H; destruct H
  | H : (_ <=? _) = true |- _ => apply Z.leb_le in H
  | H : (_ <? _) = true |- _ => apply Z.ltb_lt in H
  | H : (_ =? _) = true |- _ => apply Z.eqb_eq in H
  | H : (_ =? _)%nat = true |- _ => apply Nat.eqb_eq in H
  end.

Ltac store_simpl :=
  cbn [store_bytes set_arrays log_read log_output arrays entropy reads stdout
       s_arr s_off s_len s_cap baseBuffer workingMemory bufferSize dataLength
       set_dataLength].

(** *** The loops on one array *)

Lemma length_passes ent off n k call (l : list byte) :
  (off + n <= length l)%nat -> length (passes ent off n k call l) = length l.
Proof.
  revert call l. induction k as [|k IH]; intros call l Hb; simpl; [reflexivity|].
  assert (Hg : (length (take n (ent call n)) <= n)%nat)
    by (rewrite length_take; lia).
  rewrite IH; rewrite length_write_at; lia.
Qed.

Lemma lookup_passes_out ent off n k call (l : list byte) j :
  (off + n <= length l)%nat -> ~ (off <= j < off + n)%nat ->
  passes ent off n k call l !! j = l !! j.
Proof.
  revert call l. induction k as [|k IH]; intros call l Hb Hj; simpl; [reflexivity|].
  assert (Hg : (length (take n (ent call n)) <= n)%nat)
    by (rewrite length_take; lia).
  rewrite IH by (rewrite ?length_write_at; lia).
  apply lookup_write_at_out; lia.
Qed.

(** Ten random passes followed by the zero loop leave [n] zero bytes. *)
Lemma zero_after_passes ent off n k call (l : list byte) :
  (off + n <= length l)%nat ->
  zero_from n off (passes ent off n k call l) = write_at off (replicate n x00) l.
Proof.
  intros Hb.
  rewrite zero_from_block by (rewrite length_passes; lia).
  apply write_at_cover; rewrite ?length_replicate.
  - apply length_passes; lia.
  - intros j Hj. apply lookup_passes_out; lia.
  - lia.
Qed.

(** *** Running the primitives *)

Lemma slice_to_Ok s hi (st : Store) :
  0 <= hi <= s_cap s ->
  slice_to s hi st =
  (Ok {| s_arr := s_arr s; s_off := s_off s; s_len := hi; s_cap := s_cap s |}, st).
Proof.
  intros [H1 H2]. unfold slice_to.
  apply Z.leb_le in H1, H2. rewrite H1, H2. reflexivity.
Qed.

Lemma slice_to_Panic s hi (st : Store) :
  ~ (0 <= hi <= s_cap s) ->
  slice_to s hi st = (Panic (SliceBoundsOutOfRange hi (s_cap s)), st).
Proof.
  intros H. unfold slice_to.
  destruct (0 <=? hi) eqn:E1; destruct (hi <=? s_cap s) eqn:E2; simpl;
    try reflexivity.
  apply Z.leb_le in E1, E2. lia.
Qed.

Lemma Store_eta (st : Store) :
  {| arrays := arrays st; entropy := entropy st;
     reads := reads st; stdout := stdout st |} = st.
Proof. destruct st; reflexivity. Qed.

Lemma replicate_snoc_cons {A} k (x : A) r :
  replicate k x ++ x :: r = x :: replicate k x ++ r.
Proof. induction k as [|k IH]; simpl; [reflexivity|]. rewrite IH. reflexivity. Qed.

(** The ten random passes of [clearMemorySecure]. *)
Lemma rand_passes_run mem length k lo (st : Store) :
  0 <= length <= s_cap mem ->
  for_loop k lo (fun _ => do target <- slice_to mem length;
                          do _ <- rand_Read target; ret tt) st =
  (Ok tt,
   {| arrays := alter (passes (entropy st) (Z.to_nat (s_off mem)) (Z.to_nat length)
                         k (List.length (reads st))) (s_arr mem) (arrays st);
      entropy := entropy st;
      reads := replicate k (Z.to_nat length) ++ reads st;
      stdout := stdout st |}).
Proof.
  intros Hlen. revert lo st. induction k as [|k IH]; intros lo st.
  - simpl. unfold ret. f_equal. rewrite list_alter_id by reflexivity.
    symmetry. apply Store_eta.
  - cbn [for_loop].
    erewrite bind_Ok; cycle 1.
    { erewrite bind_Ok by (apply slice_to_Ok; exact Hlen).
      unfold bind, rand_Read, ret. cbn. reflexivity. }
    rewrite IH. cbn. f_equal. f_equal.
    + rewrite list_alter_alter_eq. reflexivity.
    + apply replicate_snoc_cons.
Qed.

(** The zero loop of [clearMemorySecure]. *)
Lemma zero_loop_run mem m i (st : Store) :
  0 <= s_off mem -> 0 <= i -> i + Z.of_nat m <= s_len mem ->
  for_loop m i (fun i => index_set mem i x00) st =
  (Ok tt, set_arrays (alter (zero_from m (Z.to_nat (s_off mem + i))) (s_arr mem)) st).
Proof.
  intros Hoff. revert i st. induction m as [|m IH]; intros i st Hi Hm.
  - simpl. unfold ret, set_arrays. f_equal.
    rewrite list_alter_id by reflexivity. symmetry. apply Store_eta.
  - cbn [for_loop].
    erewrite bind_Ok; cycle 1.
    { unfold index_set.
      replace (0 <=? i) with true by (symmetry; apply Z.leb_le; lia).
      replace (i <? s_len mem) with true by (symmetry; apply Z.ltb_lt; lia).
      reflexivity. }
    rewrite IH by lia. unfold set_arrays. cbn. f_equal. f_equal.
    rewrite list_alter_alter_eq.
    replace (Z.to_nat (s_off mem + (i + 1))) with (S (Z.to_nat (s_off mem + i))) by lia.
    reflexivity.
Qed.

Lemma valid_inv st s :
  valid st s = true ->
  0 <= s_off s /\ 0 <= s_len s <= s_cap s /\
  exists l, arrays st !! s_arr s = Some l /\
            s_off s + s_cap s <= Z.of_nat (List.length l).
Proof.
  unfold valid. intros H.
  destruct (arrays st !! s_arr s) as [l|] eqn:El; unbool; [|discriminate].
  repeat split; try lia. exists l. split; [reflexivity | lia].
Qed.

(** [clearMemorySecure(mem, length)] on a well-formed slice: ten reads of
    [length] random bytes, then [length] zero bytes at the start of [mem]. *)
Lemma clearMemorySecure_run mem length (st : Store) :
  valid st mem = true -> 0 <= length <= s_len mem ->
  clearMemorySecure mem length st = (Ok tt, cleared mem length st).
Proof.
  intros Hv Hlen. apply valid_inv in Hv as (Hoff & Hcap & l & Hl & Hb).
  unfold clearMemorySecure.
  erewrite bind_Ok by (apply rand_passes_run; lia).
  rewrite zero_loop_run by (cbn; lia).
  unfold set_arrays, cleared. cbn [arrays entropy reads stdout]. f_equal. f_equal.
  rewrite list_alter_alter_eq, Z.add_0_r.
  apply list_alter_ext; [|reflexivity].
  intros x Hx. unfold compose. apply zero_after_passes.
  rewrite Hl in Hx. injection Hx as <-. lia.
Qed.

(** *** Bytes and shapes after a block write *)

Lemma byte_at_block (st : Store) a off bs l a' j :
  arrays st !! a = Some l -> (off + List.length bs <= List.length l)%nat ->
  byte_at (set_arrays (alter (write_at off bs) a) st) a' j =
  if decide (a' = a /\ (off <= j < off + List.length bs)%nat)
  then bs !! (j - off)%nat else byte_at st a' j.
Proof.
  intros Hl Hb. unfold byte_at, set_arrays. cbn [arrays].
  rewrite list_lookup_alter.
  destruct (decide (a = a')) as [<-|Hne].
  - rewrite Hl. cbn.
    destruct (decide (a = a /\ (off <= j < off + List.length bs)%nat)) as [[_ Hin]|Hout].
    + apply lookup_write_at_in; lia.
    + apply lookup_write_at_out; [lia|]. intros Hin. apply Hout. split; [reflexivity|lia].
  - rewrite decide_False by (intros [-> _]; congruence). reflexivity.
Qed.

Lemma valid_block (st : Store) s a off bs :
  (forall l, arrays st !! a = Some l -> (off + List.length bs <= List.length l)%nat) ->
  valid (set_arrays (alter (write_at off bs) a) st) s = valid st s.
Proof.
  intros Hb. unfold valid, set_arrays. cbn [arrays].
  rewrite list_lookup_alter.
  destruct (decide (a = s_arr s)) as [->|Hne]; [|reflexivity].
  destruct (arrays st !! s_arr s) as [l|] eqn:El; cbn; [|reflexivity].
  rewrite length_write_at by (apply Hb; reflexivity). reflexivity.
Qed.

Lemma manager_ok_inv sm st :
  manager_ok sm st = true ->
  valid st (baseBuffer sm) = true /\ valid st (workingMemory sm) = true /\
  s_arr (workingMemory sm) = s_arr (baseBuffer sm) /\
  s_off (baseBuffer sm) <= s_off (workingMemory sm) /\
  s_off (workingMemory sm) + s_len (workingMemory sm) =
    s_off (baseBuffer sm) + s_len (baseBuffer sm) /\
  s_cap (workingMemory sm) = s_len (workingMemory sm) /\
  16 <= s_len (workingMemory sm) /\
  0 <= dataLength sm <= s_len (workingMemory sm).
Proof.
  unfold manager_ok. intros H. unbool. repeat split; assumption.
Qed.

Lemma manager_ok_intro sm st :
  valid st (baseBuffer sm) = true -> valid st (workingMemory sm) = true ->
  s_arr (workingMemory sm) = s_arr (baseBuffer sm) ->
  s_off (baseBuffer sm) <= s_off (workingMemory sm) ->
  s_off (workingMemory sm) + s_len (workingMemory sm) =
    s_off (baseBuffer sm) + s_len (baseBuffer sm) ->
  s_cap (workingMemory sm) = s_len (workingMemory sm) ->
  16 <= s_len (workingMemory sm) ->
  0 <= dataLength sm <= s_len (workingMemory sm) ->
  manager_ok sm st = true.
Proof.
  intros Hb Hw Ha Ho He Hc H16 [Hd1 Hd2]. unfold manager_ok.
  rewrite Hb, Hw. cbn.
  apply Nat.eqb_eq in Ha. apply Z.eqb_eq in He, Hc.
  apply Z.leb_le in Ho, H16, Hd1, Hd2.
  rewrite Ha, Ho, He, Hc, H16, Hd1, Hd2. reflexivity.
Qed.

(** A block written inside the window keeps a manager well formed,
    whatever [dataLength] within the window it then records. *)
Lemma manager_ok_block sm st bs n :
  manager_ok sm st = true ->
  Z.of_nat (List.length bs) <= s_len (workingMemory sm) ->
  0 <= n <= s_len (workingMemory sm) ->
  manager_ok (set_dataLength n sm)
    (set_arrays (alter (write_at (Z.to_nat (s_off (workingMemory sm))) bs)
                   (s_arr (workingMemory sm))) st) = true.
Proof.
  intros Hok Hbs Hn.
  apply manager_ok_inv in Hok as (Hb & Hw & Ha & Ho & He & Hc & H16 & Hd).
  assert (Hfit : forall l, arrays st !! s_arr (workingMemory sm) = Some l ->
                 (Z.to_nat (s_off (workingMemory sm)) + List.length bs <= List.length l)%nat).
  { intros l Hl. apply valid_inv in Hw as (? & ? & l' & Hl' & ?).
    rewrite Hl in Hl'. injection Hl' as <-. lia. }
  apply manager_ok_intro; cbn [baseBuffer workingMemory dataLength set_dataLength];
    rewrite ?valid_block by exact Hfit; auto.
Qed.

Lemma valid_same_arrays st st' s :
  arrays st' = arrays st -> valid st' s = valid st s.
Proof. intros H. unfold valid. rewrite H. reflexivity. Qed.

Lemma manager_ok_same_arrays sm st st' :
  arrays st' = arrays st -> manager_ok sm st' = manager_ok sm st.
Proof.
  intros H. unfold manager_ok. rewrite !(valid_same_arrays st st') by exact H.
  reflexivity.
Qed.

(** *** Running the methods of a well-formed manager *)

(** [CopyData] with data that fit. *)
Lemma CopyData_run sm data (st : Store) :
  manager_ok sm st = true ->
  Z.of_nat (List.length data) <= s_len (workingMemory sm) ->
  let st1 := store_bytes (workingMemory sm) data st in
  let shown := {| s_arr := s_arr (workingMemory sm); s_off := s_off (workingMemory sm);
                  s_len := Z.of_nat (List.length data);
                  s_cap := s_cap (workingMemory sm) |} in
  CopyData sm data st =
  (Ok (set_dataLength (Z.of_nat (List.length data)) sm),
   log_output (Printed "2. Copied data to secure memory: %s\n" (contents st1 shown)) st1).
Proof.
  intros Hok Hfit st1 shown.
  apply manager_ok_inv in Hok as (Hb & Hw & Ha & Ho & He & Hc & H16 & Hd).
  unfold CopyData.
  erewrite bind_Ok by (apply slice_to_Ok; lia).
  erewrite bind_Ok; cycle 1.
  { unfold copy. cbn [s_len]. rewrite Z.min_id, Nat2Z.id, firstn_all. reflexivity. }
  erewrite bind_Ok by (apply slice_to_Ok; cbn; lia).
  reflexivity.
Qed.

(** [CopyData] with data that do not fit: the slice expression panics at once. *)
Lemma CopyData_panics sm data (st : Store) :
  s_cap (workingMemory sm) < Z.of_nat (List.length data) ->
  CopyData sm data st =
  (Panic (SliceBoundsOutOfRange (Z.of_nat (List.length data)) (s_cap (workingMemory sm))), st).
Proof.
  intros Hbig. unfold CopyData, bind.
  rewrite slice_to_Panic by lia. reflexivity.
Qed.

(** [ClearSecure] on a well-formed manager. *)
Lemma ClearSecure_run sm (st : Store) :
  manager_ok sm st = true ->
  let st1 := if dataLength sm >? 0
             then cleared (workingMemory sm) (dataLength sm) st else st in
  let head := {| s_arr := s_arr (workingMemory sm); s_off := s_off (workingMemory sm);
                 s_len := 16; s_cap := s_cap (workingMemory sm) |} in
  ClearSecure sm st =
  (Ok (set_dataLength 0 sm),
   log_output (Printed "3. Cleared only working memory (first 16 bytes): %x\n"
                 (contents st1 head)) st1).
Proof.
  intros Hok st1 head.
  apply manager_ok_inv in Hok as (Hb & Hw & Ha & Ho & He & Hc & H16 & Hd).
  unfold ClearSecure.
  destruct (dataLength sm >? 0) eqn:Edirty.
  - erewrite bind_Ok; cycle 1.
    { erewrite bind_Ok by (apply clearMemorySecure_run; [exact Hw | lia]).
      reflexivity. }
    erewrite bind_Ok by (apply slice_to_Ok; cbn; lia).
    reflexivity.
  - assert (Hz : dataLength sm = 0) by lia.
    erewrite bind_Ok by reflexivity.
    erewrite bind_Ok by (apply slice_to_Ok; lia).
    unfold bind, Printf, ret. subst st1.
    replace (set_dataLength 0 sm) with sm; [reflexivity|].
    destruct sm; cbn in *; subst; reflexivity.
Qed.

Lemma contents_block (st : Store) s bs l :
  arrays st !! s_arr s = Some l -> 0 <= s_off s ->
  (Z.to_nat (s_off s) + List.length bs <= List.length l)%nat ->
  s_len s = Z.of_nat (List.length bs) ->
  contents (set_arrays (alter (write_at (Z.to_nat (s_off s)) bs) (s_arr s)) st) s = bs.
Proof.
  intros Hl Hoff Hb Hlen. unfold contents, set_arrays. cbn [arrays].
  rewrite list_lookup_alter_eq, Hl. cbn. unfold write_at.
  rewrite drop_app_length' by (rewrite length_take; lia).
  rewrite Hlen, Nat2Z.id. apply take_app_length.
Qed.

(** The array behind the window of a well-formed manager. *)
Lemma manager_ok_array sm st :
  manager_ok sm st = true ->
  exists l, arrays st !! s_arr (workingMemory sm) = Some l /\
            (window_hi sm <= List.length l)%nat /\
            0 <= s_off (workingMemory sm).
Proof.
  intros Hok. apply manager_ok_inv in Hok as (_ & Hw & _ & _ & _ & Hc & _ & _).
  apply valid_inv in Hw as (Hoff & Hlen & l & Hl & Hb).
  exists l. unfold window_hi. repeat split; [assumption | lia | assumption].
Qed.

(** [ClearSecure] on a clean manager changes no byte and reads no entropy. *)
Lemma ClearSecure_clean sm (st : Store) :
  manager_ok sm st = true -> dataLength sm = 0 ->
  exists st', ClearSecure sm st = (Ok sm, st') /\
              arrays st' = arrays st /\ reads st' = reads st /\
              entropy st' = entropy st.
Proof.
  intros Hok Hz. pose proof (ClearSecure_run sm st Hok) as Hrun.
  cbv zeta in Hrun. rewrite Hz in Hrun. cbn [Z.gtb Z.compare] in Hrun.
  eexists. split.
  - rewrite Hrun. f_equal. destruct sm; cbn in *; subst; reflexivity.
  - repeat split.
Qed.

Lemma byte_at_same_arrays st st' a j :
  arrays st' = arrays st -> byte_at st' a j = byte_at st a j.
Proof. intros H. unfold byte_at. rewrite H. reflexivity. Qed.

(** The bytes after a block of [bs] has been written at the start of the
    window of a well-formed manager. *)
Lemma byte_at_window_block sm (st st' : Store) bs a j :
  manager_ok sm st = true ->
  Z.of_nat (List.length bs) <= s_len (workingMemory sm) ->
  arrays st' = alter (write_at (Z.to_nat (s_off (workingMemory sm))) bs)
                 (s_arr (workingMemory sm)) (arrays st) ->
  byte_at st' a j =
  if decide (a = s_arr (workingMemory sm) /\
             (window_lo sm <= j < window_lo sm + List.length bs)%nat)
  then bs !! (j - window_lo sm)%nat else byte_at st a j.
Proof.
  intros Hok Hfit Harr.
  destruct (manager_ok_array sm st Hok) as (l & Hl & Hhi & Hoff).
  unfold window_hi in Hhi. unfold window_lo.
  rewrite (byte_at_same_arrays
             (set_arrays (alter (write_at (Z.to_nat (s_off (workingMemory sm))) bs)
                            (s_arr (workingMemory sm))) st) st') by exact Harr.
  apply (byte_at_block st _ _ bs l); [exact Hl | lia].
Qed.

(** *** The arrays after a write and after a clear *)

Lemma CopyData_arrays sm data (st : Store) :
  manager_ok sm st = true ->
  Z.of_nat (List.length data) <= s_len (workingMemory sm) ->
  exists st',
    CopyData sm data st = (Ok (set_dataLength (Z.of_nat (List.length data)) sm), st') /\
    arrays st' = alter (write_at (window_lo sm) data)
                   (s_arr (workingMemory sm)) (arrays st) /\
    reads st' = reads st /\
    manager_ok (set_dataLength (Z.of_nat (List.length data)) sm) st' = true.
Proof.
  intros Hok Hfit. eexists. split; [apply CopyData_run; assumption|].
  repeat split.
  rewrite (manager_ok_same_arrays _ (store_bytes (workingMemory sm) data st))
    by reflexivity.
  apply manager_ok_block; [exact Hok | exact Hfit | lia].
Qed.

Lemma ClearSecure_arrays sm (st : Store) :
  manager_ok sm st = true ->
  exists st',
    ClearSecure sm st = (Ok (set_dataLength 0 sm), st') /\
    arrays st' = alter (write_at (window_lo sm)
                          (replicate (Z.to_nat (dataLength sm)) x00))
                   (s_arr (workingMemory sm)) (arrays st) /\
    manager_ok (set_dataLength 0 sm) st' = true.
Proof.
  intros Hok. pose proof (manager_ok_inv sm st Hok) as (_ & _ & _ & _ & _ & _ & H16 & Hd).
  eexists. split; [apply ClearSecure_run; assumption|].
  cbn [arrays log_output].
  destruct (dataLength sm >? 0) eqn:Edirty.
  - split; [reflexivity|].
    rewrite (manager_ok_same_arrays _
               (set_arrays (alter (write_at (Z.to_nat (s_off (workingMemory sm)))
                                     (replicate (Z.to_nat (dataLength sm)) x00))
                              (s_arr (workingMemory sm))) st)) by reflexivity.
    apply manager_ok_block; [exact Hok | rewrite length_replicate; lia | lia].
  - assert (Hz : dataLength sm = 0) by lia. rewrite Hz. cbn [Z.to_nat replicate].
    split.
    + symmetry. apply list_alter_id. intros l. apply write_at_nil.
    + rewrite (manager_ok_same_arrays _ st) by reflexivity.
      replace (set_dataLength 0 sm) with sm; [exact Hok|].
      destruct sm; cbn in *; subst; reflexivity.
Qed.

(** *** The manager's clearing discipline *)

(** C1.  On every well-formed manager, after a write of [n > 0] bytes the
    first [ClearSecure] does the real work: ten random reads of [n] bytes
    each, the [n] written bytes zero afterwards, no byte outside them
    changed, [dataLength] back to 0.  A second [ClearSecure] with no write
    in between is a no-op: the manager, every byte of every array and the
    log of random reads are what they were. *)
Theorem ClearSecure_twice sm data (st : Store) :
  manager_ok sm st = true ->
  0 < Z.of_nat (List.length data) <= s_len (workingMemory sm) ->
  exists sm1 st1 sm2 st2 sm3 st3,
    CopyData sm data st = (Ok sm1, st1) /\
    ClearSecure sm1 st1 = (Ok sm2, st2) /\
    ClearSecure sm2 st2 = (Ok sm3, st3) /\
    reads st2 = replicate 10 (List.length data) ++ reads st1 /\
    (forall j, (window_lo sm <= j < window_lo sm + List.length data)%nat ->
               byte_at st2 (s_arr (workingMemory sm)) j = Some x00) /\
    (forall a j, ~ (a = s_arr (workingMemory sm) /\
                    (window_lo sm <= j < window_lo sm + List.length data)%nat) ->
                 byte_at st2 a j = byte_at st1 a j) /\
    dataLength sm2 = 0 /\
    sm3 = sm2 /\ arrays st3 = arrays st2 /\ reads st3 = reads st2.
Proof.
  intros Hok [Hpos Hfit].
  pose proof (CopyData_run sm data st Hok Hfit) as Hcopy. cbv zeta in Hcopy.
  set (sm1 := set_dataLength (Z.of_nat (List.length data)) sm) in *.
  match type of Hcopy with _ = (_, ?s) => set (st1 := s) in * end.
  assert (Hok1 : manager_ok sm1 st1 = true).
  { rewrite (manager_ok_same_arrays sm1 (store_bytes (workingMemory sm) data st))
      by reflexivity.
    apply manager_ok_block; [exact Hok | exact Hfit | lia]. }
  pose proof (ClearSecure_run sm1 st1 Hok1) as Hclear. cbv zeta in Hclear.
  replace (dataLength sm1 >? 0) with true in Hclear
    by (symmetry; apply Z.gtb_lt; exact Hpos).
  set (sm2 := set_dataLength 0 sm1) in *.
  match type of Hclear with _ = (_, ?s) => set (st2 := s) in * end.
  assert (Hok2 : manager_ok sm2 st2 = true).
  { rewrite (manager_ok_same_arrays sm2
               (set_arrays (alter (write_at (Z.to_nat (s_off (workingMemory sm1)))
                                     (replicate (Z.to_nat (dataLength sm1)) x00))
                              (s_arr (workingMemory sm1))) st1)) by reflexivity.
    apply manager_ok_block; [exact Hok1 | rewrite length_replicate; cbn; lia |].
    apply manager_ok_inv in Hok1. lia. }
  destruct (ClearSecure_clean sm2 st2 Hok2 eq_refl) as (st3 & Hagain & Harr & Hreads & _).
  exists sm1, st1, sm2, st2, sm2, st3.
  assert (Hbytes : forall a j,
    byte_at st2 a j =
    if decide (a = s_arr (workingMemory sm) /\
               (window_lo sm <= j < window_lo sm + List.length data)%nat)
    then Some x00 else byte_at st1 a j).
  { intros a j.
    rewrite (byte_at_window_block sm1 st1 st2
               (replicate (Z.to_nat (Z.of_nat (List.length data))) x00) a j Hok1);
      [| rewrite length_replicate; cbn; lia | reflexivity].
    rewrite length_replicate, Nat2Z.id.
    change (window_lo sm1) with (window_lo sm).
    change (workingMemory sm1) with (workingMemory sm).
    destruct (decide _) as [[_ Hin]|_]; [|reflexivity].
    apply lookup_replicate_2. lia. }
  repeat split; try assumption; try reflexivity.
  - cbn [st2 reads log_output cleared sm1 set_dataLength dataLength].
    rewrite Nat2Z.id. reflexivity.
  - intros j Hj. rewrite Hbytes, decide_True by (split; [reflexivity | exact Hj]).
    reflexivity.
  - intros a j Hout. rewrite Hbytes, decide_False by exact Hout. reflexivity.
Qed.

Lemma ClearSecure_twice_witness :
  exists sm1 st1 sm2 st2 sm3 st3,
    CopyData demo_manager demo_data demo_store = (Ok sm1, st1) /\
    ClearSecure sm1 st1 = (Ok sm2, st2) /\
    ClearSecure sm2 st2 = (Ok sm3, st3) /\
    reads st2 = replicate 10 (List.length demo_data) ++ reads st1 /\
    (forall j, (window_lo demo_manager <= j < window_lo demo_manager + List.length demo_data)%nat ->
               byte_at st2 (s_arr (workingMemory demo_manager)) j = Some x00) /\
    (forall a j, ~ (a = s_arr (workingMemory demo_manager) /\
                    (window_lo demo_manager <= j < window_lo demo_manager + List.length demo_data)%nat) ->
                 byte_at st2 a j = byte_at st1 a j) /\
    dataLength sm2 = 0 /\
    sm3 = sm2 /\ arrays st3 = arrays st2 /\ reads st3 = reads st2.
Proof.
  apply (ClearSecure_twice demo_manager demo_data demo_store).
  - reflexivity.
  - simpl. lia.
Defined.

(** C2.  Whatever the length [n] of the data written, from 0 to the whole
    window, after [ClearSecure] the written range [workingMemory[:n]] reads
    as [n] zero bytes; the zero pass covers exactly those [n] bytes, every
    other byte is what it was before the clear. *)
Theorem ClearSecure_zeroes_written_range sm data (st : Store) :
  manager_ok sm st = true ->
  Z.of_nat (List.length data) <= s_len (workingMemory sm) ->
  exists sm1 st1 sm2 st2,
    CopyData sm data st = (Ok sm1, st1) /\
    ClearSecure sm1 st1 = (Ok sm2, st2) /\
    contents st2 {| s_arr := s_arr (workingMemory sm);
                    s_off := s_off (workingMemory sm);
                    s_len := Z.of_nat (List.length data);
                    s_cap := s_cap (workingMemory sm) |} =
      replicate (List.length data) x00 /\
    (forall a j, ~ (a = s_arr (workingMemory sm) /\
                    (window_lo sm <= j < window_lo sm + List.length data)%nat) ->
                 byte_at st2 a j = byte_at st1 a j).
Proof.
  intros Hok Hfit.
  destruct (CopyData_arrays sm data st Hok Hfit) as (st1 & Hcopy & Harr1 & _ & Hok1).
  destruct (ClearSecure_arrays _ st1 Hok1) as (st2 & Hclear & Harr2 & _).
  cbn [set_dataLength dataLength workingMemory] in Harr2.
  change (window_lo (set_dataLength _ sm)) with (window_lo sm) in Harr2.
  rewrite Nat2Z.id in Harr2.
  destruct (manager_ok_array _ st1 Hok1) as (l & Hl & Hhi & Hoff).
  unfold window_hi in Hhi. cbn [set_dataLength workingMemory] in Hl, Hhi, Hoff.
  exists (set_dataLength (Z.of_nat (List.length data)) sm), st1,
         (set_dataLength 0 (set_dataLength (Z.of_nat (List.length data)) sm)), st2.
  split; [exact Hcopy|]. split; [exact Hclear|]. split.
  - unfold contents at 1. rewrite Harr2.
    pose proof (contents_block st1
      {| s_arr := s_arr (workingMemory sm); s_off := s_off (workingMemory sm);
         s_len := Z.of_nat (List.length data); s_cap := s_cap (workingMemory sm) |}
      (replicate (List.length data) x00) l) as Hc.
    unfold contents, set_arrays in Hc. cbn [arrays s_arr s_off s_len] in Hc.
    apply Hc; rewrite ?length_replicate; [exact Hl | exact Hoff | lia | reflexivity].
  - intros a j Hout.
    rewrite (byte_at_window_block _ st1 st2 (replicate (List.length data) x00) a j Hok1);
      [| rewrite length_replicate; cbn; lia | exact Harr2].
    rewrite length_replicate.
    change (window_lo (set_dataLength _ sm)) with (window_lo sm).
    cbn [set_dataLength workingMemory].
    rewrite decide_False by exact Hout. reflexivity.
Qed.

Lemma ClearSecure_zeroes_written_range_witness :
  exists sm1 st1 sm2 st2,
    CopyData demo_manager demo_data demo_store = (Ok sm1, st1) /\
    ClearSecure sm1 st1 = (Ok sm2, st2) /\
    contents st2 {| s_arr := s_arr (workingMemory demo_manager);
                    s_off := s_off (workingMemory demo_manager);
                    s_len := Z.of_nat (List.length demo_data);
                    s_cap := s_cap (workingMemory demo_manager) |} =
      replicate (List.length demo_data) x00 /\
    (forall a j, ~ (a = s_arr (workingMemory demo_manager) /\
                    (window_lo demo_manager <= j <
                     window_lo demo_manager + List.length demo_data)%nat) ->
                 byte_at st2 a j = byte_at st1 a j).
Proof.
  apply (ClearSecure_zeroes_written_range demo_manager demo_data demo_store).
  - reflexivity.
  - simpl. lia.
Defined.

(** *** Writing into the window *)

(** C5.  [CopyData] fails exactly when the data are longer than the
    window: the slice expression [workingMemory[:len(data)]] then panics
    before a byte is copied, and the store is left as it was; data that
    fit are always copied. *)
Theorem CopyData_capacity sm data (st : Store) :
  manager_ok sm st = true ->
  (s_len (workingMemory sm) < Z.of_nat (List.length data) ->
   CopyData sm data st =
   (Panic (SliceBoundsOutOfRange (Z.of_nat (List.length data))
             (s_len (workingMemory sm))), st)) /\
  (Z.of_nat (List.length data) <= s_len (workingMemory sm) ->
   exists sm' st', CopyData sm data st = (Ok sm', st')).
Proof.
  intros Hok. split.
  - intros Hbig.
    pose proof (manager_ok_inv sm st Hok) as (_ & _ & _ & _ & _ & Hc & _ & _).
    rewrite <- Hc. apply CopyData_panics. lia.
  - intros Hfit.
    destruct (CopyData_arrays sm data st Hok Hfit) as (st' & Hrun & _).
    eauto.
Qed.

Lemma CopyData_capacity_witness :
  CopyData demo_manager (demo_data ++ [x21]) demo_store =
    (Panic (SliceBoundsOutOfRange 17 16), demo_store) /\
  exists sm' st', CopyData demo_manager demo_data demo_store = (Ok sm', st').
Proof.
  split.
  - apply (CopyData_capacity demo_manager (demo_data ++ [x21]) demo_store);
      [reflexivity | simpl; lia].
  - apply (CopyData_capacity demo_manager demo_data demo_store);
      [reflexivity | simpl; lia].
Defined.

(** C6.  Data that fit are read back unchanged from the start of the
    window after [CopyData], and [dataLength] is their length. *)
Theorem CopyData_round_trip sm data (st : Store) :
  manager_ok sm st = true ->
  Z.of_nat (List.length data) <= s_len (workingMemory sm) ->
  exists sm' st',
    CopyData sm data st = (Ok sm', st') /\
    contents st' {| s_arr := s_arr (workingMemory sm');
                    s_off := s_off (workingMemory sm');
                    s_len := Z.of_nat (List.length data);
                    s_cap := s_cap (workingMemory sm') |} = data /\
    dataLength sm' = Z.of_nat (List.length data) /\
    workingMemory sm' = workingMemory sm.
Proof.
  intros Hok Hfit.
  destruct (CopyData_arrays sm data st Hok Hfit) as (st' & Hrun & Harr & _ & _).
  destruct (manager_ok_array sm st Hok) as (l & Hl & Hhi & Hoff).
  unfold window_hi in Hhi.
  exists (set_dataLength (Z.of_nat (List.length data)) sm), st'.
  split; [exact Hrun|]. split; [|split; reflexivity].
  cbn [set_dataLength workingMemory].
  unfold contents at 1. rewrite Harr.
  pose proof (contents_block st
    {| s_arr := s_arr (workingMemory sm); s_off := s_off (workingMemory sm);
       s_len := Z.of_nat (List.length data); s_cap := s_cap (workingMemory sm) |}
    data l) as Hc.
  unfold contents, set_arrays in Hc. cbn [arrays s_arr s_off s_len] in Hc.
  apply Hc; [exact Hl | exact Hoff | lia | reflexivity].
Qed.

Lemma CopyData_round_trip_witness :
  exists sm' st',
    CopyData demo_manager demo_data demo_store = (Ok sm', st') /\
    contents st' {| s_arr := s_arr (workingMemory sm');
                    s_off := s_off (workingMemory sm');
                    s_len := Z.of_nat (List.length demo_data);
                    s_cap := s_cap (workingMemory sm') |} = demo_data /\
    dataLength sm' = Z.of_nat (List.length demo_data) /\
    workingMemory sm' = workingMemory demo_manager.
Proof.
  apply (CopyData_round_trip demo_manager demo_data demo_store).
  - reflexivity.
  - simpl. lia.
Defined.

(** *** Placing the window *)

Lemma createMemoryAddressing_small buffer (st : Store) :
  s_len buffer < 256 ->
  createMemoryAddressingWithRandomOffsetStruct buffer st = (Ok buffer, st).
Proof.
  intros H. unfold createMemoryAddressingWithRandomOffsetStruct.
  replace (s_len buffer <? 256) with true by (symmetry; apply Z.ltb_lt; lia).
  reflexivity.
Qed.

Lemma clamp_bounds x maxOffset :
  128 <= maxOffset ->
  let offset := if x <? 64 then 64 else x in
  let offset := if offset >? maxOffset - 64 then maxOffset - 64 else offset in
  64 <= offset <= maxOffset - 64.
Proof.
  intros H. cbv zeta.
  destruct (x <? 64) eqn:E1;
    destruct (_ >? maxOffset - 64) eqn:E2; lia.
Qed.

Lemma createMemoryAddressing_large buffer (st : Store) :
  256 <= s_len buffer ->
  exists offset tmp,
    64 <= offset <= s_len buffer - 192 /\
    createMemoryAddressingWithRandomOffsetStruct buffer st =
    (Ok {| s_arr := s_arr buffer; s_off := s_off buffer + offset;
           s_len := s_len buffer - offset; s_cap := s_cap buffer - offset |},
     {| arrays := arrays st ++ [tmp]; entropy := entropy st;
        reads := 2%nat :: reads st; stdout := stdout st |}).
Proof.
  intros H. unfold createMemoryAddressingWithRandomOffsetStruct.
  replace (s_len buffer <? 256) with false by (symmetry; apply Z.ltb_ge; lia).
  erewrite bind_Ok by reflexivity.
  erewrite bind_Ok by reflexivity.
  erewrite bind_Ok by reflexivity.
  erewrite bind_Ok by reflexivity.
  match goal with
  | |- context [Z.rem ?x ?m] =>
      pose proof (clamp_bounds (Z.rem x m) m ltac:(lia)) as Hb;
      cbv zeta in Hb; set (r := Z.rem x m) in *
  end.
  match type of Hb with _ <= ?o <= _ => set (offset := o) in * end.
  eexists offset, _. split; [lia|].
  unfold slice_from.
  replace (0 <=? offset) with true by (symmetry; apply Z.leb_le; lia).
  replace (offset <=? s_len buffer) with true by (symmetry; apply Z.leb_le; lia).
  cbn [andb]. unfold ret. f_equal.
  unfold store_bytes, set_arrays, log_read. cbn [arrays entropy reads stdout s_arr s_off].
  f_equal.
  rewrite alter_app_r_alt by lia. rewrite Nat.sub_diag. reflexivity.
Qed.

(** Both cases at once: the window is [buffer[offset:]]. *)
Lemma createMemoryAddressing_run buffer (st : Store) :
  0 <= s_len buffer ->
  exists offset extra k,
    0 <= offset <= s_len buffer /\
    (s_len buffer < 256 -> offset = 0) /\
    (256 <= s_len buffer -> 64 <= offset <= s_len buffer - 192) /\
    createMemoryAddressingWithRandomOffsetStruct buffer st =
    (Ok {| s_arr := s_arr buffer; s_off := s_off buffer + offset;
           s_len := s_len buffer - offset; s_cap := s_cap buffer - offset |},
     {| arrays := arrays st ++ extra; entropy := entropy st;
        reads := k ++ reads st; stdout := stdout st |}).
Proof.
  intros Hlen. destruct (Z.lt_ge_cases (s_len buffer) 256) as [Hsmall|Hlarge].
  - exists 0, [], []. repeat split; try lia.
    rewrite createMemoryAddressing_small by exact Hsmall.
    rewrite app_nil_r. cbn [app]. rewrite Store_eta.
    destruct buffer; cbn. rewrite Z.add_0_r, !Z.sub_0_r. reflexivity.

  - destruct (createMemoryAddressing_large buffer st Hlarge) as (offset & tmp & Hb & Hrun).
    exists offset, [tmp], [2%nat]. repeat split; try lia. exact Hrun.
Qed.

(** C4, as the code has it.  A buffer shorter than 256 bytes is returned
    whole.  Otherwise the window is [buffer[offset:]] with
    [64 <= offset <= len(buffer) - 192]: at least 64 unused bytes come
    before it, it holds at least 192 bytes, and it runs to the end of the
    backing region, so that no byte of slack follows it; only data of at
    most 128 bytes written at its start are followed by 64 bytes or more
    of the region. *)
Theorem window_placement buffer (st : Store) :
  exists w st',
    createMemoryAddressingWithRandomOffsetStruct buffer st = (Ok w, st') /\
    s_arr w = s_arr buffer /\
    (s_len buffer < 256 -> w = buffer) /\
    (256 <= s_len buffer ->
     64 <= slack_before buffer w <= s_len buffer - 192 /\
     slack_after buffer w = 0 /\
     192 <= s_len w /\
     forall n, 0 <= n <= 128 ->
               64 <= (s_off buffer + s_len buffer) - (s_off w + n)).
Proof.
  destruct (Z.lt_ge_cases (s_len buffer) 256) as [Hsmall|Hlarge].
  - exists buffer, st. split; [apply createMemoryAddressing_small; exact Hsmall|].
    split; [reflexivity|]. split; [reflexivity | lia].
  - destruct (createMemoryAddressing_large buffer st Hlarge) as (offset & tmp & Hb & Hrun).
    eexists _, _. split; [exact Hrun|]. split; [reflexivity|].
    split; [lia|]. intros _.
    unfold slack_before, slack_after. cbn [s_off s_len].
    repeat split; try lia.
Qed.

Lemma window_placement_witness :
  exists w st',
    createMemoryAddressingWithRandomOffsetStruct wide_buffer wide_store = (Ok w, st') /\
    64 <= slack_before wide_buffer w <= s_len wide_buffer - 192 /\
    slack_after wide_buffer w = 0 /\
    192 <= s_len w /\
    forall n, 0 <= n <= 128 ->
              64 <= (s_off wide_buffer + s_len wide_buffer) - (s_off w + n).
Proof.
  destruct (window_placement wide_buffer wide_store) as (w & st' & Hrun & _ & _ & Hlarge).
  exists w, st'. split; [exact Hrun|]. apply Hlarge. simpl. lia.
Defined.

(** C4 as stated fails: on the 2048-byte region of [method2], where 64
    bytes of slack on both sides are feasible, the window starts 165 bytes
    in and ends where the region ends. *)
Lemma window_has_no_slack_after :
  exists w st',
    createMemoryAddressingWithRandomOffsetStruct wide_buffer wide_store = (Ok w, st') /\
    slack_before wide_buffer w = 165 /\
    slack_after wide_buffer w = 0 /\
    ~ (64 <= slack_before wide_buffer w /\ 64 <= slack_after wide_buffer w).
Proof.
  eexists _, _. split; [vm_compute; reflexivity|].
  split; [reflexivity|]. split; [reflexivity|].
  intros [_ H]. vm_compute in H. apply H. reflexivity.
Qed.

(** *** Creating a manager *)

(** What a manager returned by [NewSecureMemoryManager] looks like: it is
    well formed, its base buffer is a fresh array of [size] bytes, the
    arrays that existed are untouched, and outside the window the fresh
    array still holds the zero bytes [make] put there. *)
Lemma NewSecureMemoryManager_Ok size (st : Store) sm st' :
  NewSecureMemoryManager size st = (Ok sm, st') ->
  manager_ok sm st' = true /\
  baseBuffer sm = {| s_arr := List.length (arrays st); s_off := 0;
                     s_len := size; s_cap := size |} /\
  bufferSize sm = size /\ dataLength sm = 0 /\
  take (List.length (arrays st)) (arrays st') = arrays st /\
  (forall j, ~ (window_lo sm <= j < window_hi sm)%nat ->
             byte_at st' (s_arr (baseBuffer sm)) j =
             replicate (Z.to_nat size) x00 !! j).
Proof.
  unfold NewSecureMemoryManager. intros H.
  unfold bind at 1 in H. unfold make at 1 in H.
  destruct (size <? 0) eqn:Eneg; [discriminate|]. apply Z.ltb_ge in Eneg.
  match type of H with
  | bind (createMemoryAddressingWithRandomOffsetStruct ?b) _ ?s = _ =>
      destruct (createMemoryAddressing_run b s ltac:(cbn; lia))
        as (offset & extra & k & Hoff & _ & _ & Hrun)
  end.
  erewrite bind_Ok in H by exact Hrun. clear Hrun.
  cbn [s_arr s_off s_len s_cap set_arrays arrays entropy reads stdout] in *.
  erewrite bind_Ok in H by reflexivity.
  unfold bind at 1 in H.
  match type of H with
  | context [(?a <? ?b)%nat] => destruct (a <? b)%nat eqn:Eerr
  end; [discriminate|].
  unfold ret at 1 in H.
  destruct (Z.le_gt_cases 16 (size - offset)) as [H16|Hshort];
    [| unfold bind at 1 in H; rewrite slice_to_Panic in H by (cbn; lia);
       discriminate].
  erewrite bind_Ok in H by (apply slice_to_Ok; cbn; lia).
  unfold bind at 1, Printf at 1, ret at 1 in H.
  injection H as <- <-.
  cbn [store_bytes set_arrays log_read log_output arrays entropy reads stdout
       s_arr s_off s_len s_cap] in *.
  set (got := take (Z.to_nat (size - offset)) _) in *.
  assert (Hgot : (List.length got <= Z.to_nat (size - offset))%nat)
    by (subst got; rewrite length_take; lia).
  set (zeros := replicate (Z.to_nat size) x00).
  assert (Hzeros : List.length zeros = Z.to_nat size) by apply length_replicate.
  assert (Harr : alter (write_at (Z.to_nat (0 + offset)) got) (List.length (arrays st))
                   ((arrays st ++ [zeros]) ++ extra) !! List.length (arrays st) =
                 Some (write_at (Z.to_nat (0 + offset)) got zeros)).
  { rewrite list_lookup_alter_eq, <- app_assoc. cbn [app].
    rewrite list_lookup_middle by reflexivity. reflexivity. }
  assert (Hwlen : List.length (write_at (Z.to_nat (0 + offset)) got zeros) = Z.to_nat size)
    by (rewrite length_write_at; lia).
  repeat split.
  - apply manager_ok_intro;
      cbn [baseBuffer workingMemory dataLength s_arr s_off s_len s_cap];
      try lia; try reflexivity.
    + unfold valid. store_simpl. rewrite Harr, Hwlen.
      repeat (apply andb_true_intro; split); apply Z.leb_le; lia.
    + unfold valid. store_simpl. rewrite Harr, Hwlen.
      repeat (apply andb_true_intro; split); apply Z.leb_le; lia.
  - store_simpl. rewrite take_alter_ge by lia. rewrite <- app_assoc. apply take_app_length.
  - intros j Hj. unfold byte_at, window_lo, window_hi in *.
    store_simpl. cbn [workingMemory s_off s_len] in Hj.
    rewrite Harr. apply lookup_write_at_out; lia.
Qed.

(** With a random source that delivers, a region of at least 16 bytes
    always yields a manager. *)
Lemma NewSecureMemoryManager_returns size (st : Store) :
  16 <= size ->
  (forall k n, (n <= List.length (entropy st k n))%nat) ->
  exists sm st', NewSecureMemoryManager size st = (Ok sm, st').
Proof.
  intros H16 Hent. unfold NewSecureMemoryManager.
  erewrite bind_Ok; cycle 1.
  { unfold make. replace (size <? 0) with false by (symmetry; apply Z.ltb_ge; lia).
    reflexivity. }
  match goal with
  | |- context [bind (createMemoryAddressingWithRandomOffsetStruct ?b) _ ?s] =>
      destruct (createMemoryAddressing_run b s ltac:(cbn; lia))
        as (offset & extra & k & Hoff & Hsmall & Hlarge & Hrun)
  end.
  erewrite bind_Ok by exact Hrun. clear Hrun. store_simpl. cbn [s_len] in *.
  assert (Hwin : 16 <= size - offset).
  { destruct (Z.lt_ge_cases size 256) as [Hs|Hl]; [rewrite Hsmall by exact Hs; lia|].
    specialize (Hlarge Hl). lia. }
  erewrite bind_Ok by reflexivity. store_simpl.
  rewrite length_take, Nat.min_l by apply Hent.
  rewrite Nat.ltb_irrefl.
  erewrite bind_Ok by reflexivity.
  erewrite bind_Ok by (apply slice_to_Ok; cbn; lia).
  eexists _, _. reflexivity.
Qed.

(** Every state a manager goes through is well formed. *)
Lemma reachable_ok sm st : reachable sm st -> manager_ok sm st = true.
Proof.
  induction 1 as [size st0 sm st Hnew
                 | sm st data sm' st' _ IH Hcopy
                 | sm st sm' st' _ IH Hclear].
  - apply NewSecureMemoryManager_Ok in Hnew. apply Hnew.
  - destruct (Z.le_gt_cases (Z.of_nat (List.length data)) (s_len (workingMemory sm)))
      as [Hfit|Hbig].
    + destruct (CopyData_arrays sm data st IH Hfit) as (st1 & Hrun & _ & _ & Hok1).
      rewrite Hcopy in Hrun. injection Hrun as -> ->. exact Hok1.
    + pose proof (manager_ok_inv sm st IH) as (_ & _ & _ & _ & _ & Hc & _ & _).
      rewrite CopyData_panics in Hcopy by lia. discriminate.
  - destruct (ClearSecure_arrays sm st IH) as (st1 & Hrun & _ & Hok1).
    rewrite Hclear in Hrun. injection Hrun as -> ->. exact Hok1.
Qed.

(** *** Isolation *)

(** C3.  For a well-formed manager, no byte outside the window is
    modified: a manager just returned by [NewSecureMemoryManager] leaves
    the arrays that existed as they were and, outside the window, its own
    backing array as [make] zeroed it; the random fill of the working
    memory, [CopyData] and [ClearSecure], whatever their outcome, change
    no byte outside the window. *)
Theorem window_isolation sm (st : Store) :
  manager_ok sm st = true ->
  (forall size st0,
     NewSecureMemoryManager size st0 = (Ok sm, st) ->
     take (List.length (arrays st0)) (arrays st) = arrays st0 /\
     forall j, ~ (window_lo sm <= j < window_hi sm)%nat ->
               byte_at st (s_arr (baseBuffer sm)) j =
               replicate (Z.to_nat size) x00 !! j) /\
  (forall r st',
     rand_Read (workingMemory sm) st = (r, st') ->
     forall a j, ~ in_window sm a j -> byte_at st' a j = byte_at st a j) /\
  (forall data r st',
     CopyData sm data st = (r, st') ->
     forall a j, ~ in_window sm a j -> byte_at st' a j = byte_at st a j) /\
  (forall r st',
     ClearSecure sm st = (r, st') ->
     forall a j, ~ in_window sm a j -> byte_at st' a j = byte_at st a j).
Proof.
  intros Hok.
  pose proof (manager_ok_inv sm st Hok) as (_ & Hw & _ & _ & _ & Hc & _ & Hd).
  apply valid_inv in Hw as (Hoff & Hlen & _).
  split; [|split; [|split]].
  - intros size st0 Hnew.
    apply NewSecureMemoryManager_Ok in Hnew as (_ & _ & _ & _ & Htake & Hout).
    split; assumption.
  - intros r st' Hrun a j Hout. unfold rand_Read in Hrun.
    injection Hrun as _ <-.
    set (got := take (Z.to_nat (s_len (workingMemory sm))) _).
    assert (Hgot : Z.of_nat (List.length got) <= s_len (workingMemory sm))
      by (subst got; rewrite length_take; lia).
    rewrite (byte_at_window_block sm st
               (store_bytes (workingMemory sm) got
                  (log_read (Z.to_nat (s_len (workingMemory sm))) st))
               got a j Hok Hgot eq_refl).
    rewrite decide_False; [reflexivity|].
    intros [Ha Hj]. apply Hout. split; [exact Ha|].
    unfold window_lo, window_hi in *. lia.
  - intros data r st' Hrun a j Hout.
    destruct (Z.le_gt_cases (Z.of_nat (List.length data)) (s_len (workingMemory sm)))
      as [Hfit|Hbig].
    + destruct (CopyData_arrays sm data st Hok Hfit) as (st1 & Hrun1 & Harr & _).
      rewrite Hrun in Hrun1. injection Hrun1 as -> ->.
      rewrite (byte_at_window_block sm st st1 data a j Hok Hfit Harr).
      rewrite decide_False; [reflexivity|].
      intros [Ha Hj]. apply Hout. split; [exact Ha|].
      unfold window_lo, window_hi in *. lia.
    + rewrite CopyData_panics in Hrun by lia. injection Hrun as _ <-. reflexivity.
  - intros r st' Hrun a j Hout.
    destruct (ClearSecure_arrays sm st Hok) as (st1 & Hrun1 & Harr & _).
    rewrite Hrun in Hrun1. injection Hrun1 as -> ->.
    rewrite (byte_at_window_block sm st st1
               (replicate (Z.to_nat (dataLength sm)) x00) a j Hok)
      by (rewrite ?length_replicate; first [lia | exact Harr]).
    rewrite decide_False; [reflexivity|].
    rewrite length_replicate.
    intros [Ha Hj]. apply Hout. split; [exact Ha|].
    unfold window_lo, window_hi in *. lia.
Qed.

Lemma window_isolation_witness :
  exists sm st,
    NewSecureMemoryManager 300 empty_store = (Ok sm, st) /\
    (forall size st0,
       NewSecureMemoryManager size st0 = (Ok sm, st) ->
       take (List.length (arrays st0)) (arrays st) = arrays st0 /\
       forall j, ~ (window_lo sm <= j < window_hi sm)%nat ->
                 byte_at st (s_arr (baseBuffer sm)) j =
                 replicate (Z.to_nat size) x00 !! j) /\
    (forall r st',
       rand_Read (workingMemory sm) st = (r, st') ->
       forall a j, ~ in_window sm a j -> byte_at st' a j = byte_at st a j) /\
    (forall data r st',
       CopyData sm data st = (r, st') ->
       forall a j, ~ in_window sm a j -> byte_at st' a j = byte_at st a j) /\
    (forall r st',
       ClearSecure sm st = (r, st') ->
       forall a j, ~ in_window sm a j -> byte_at st' a j = byte_at st a j).
Proof.
  eexists _, _. split; [vm_compute; reflexivity|].
  apply window_isolation. vm_compute. reflexivity.
Defined.

(** *** The run of [method2] *)

(** On a 2048-byte region with the window 165 bytes in: the offset and
    the fill are drawn, the 28 bytes are overwritten ten times, and the
    written range ends up zero. *)
Example method2_run :
  exists st,
    method2 empty_store = (Ok tt, st) /\
    reads st = (replicate 10 28 ++ [1883; 2])%nat /\
    contents st {| s_arr := 0; s_off := 165; s_len := 28; s_cap := 1883 |} =
      replicate 28 x00 /\
    take 165 (default [] (arrays st !! 0%nat)) = replicate 165 x00.
Proof.
  eexists. split; [vm_compute; reflexivity|].
  repeat split; vm_compute; reflexivity.
Qed.

(** ** Further properties of the manager program *)

(** *** [clearMemorySecure] on any slice *)



(** X2.  A length that is negative or beyond the capacity of the slice
    makes [clearMemorySecure] panic in the first slice expression: no
    random byte is read and no byte is written. *)
Theorem clearMemorySecure_out_of_capacity mem length (st : Store) :
  ~ (0 <= length <= s_cap mem) ->
  clearMemorySecure mem length st =
  (Panic (SliceBoundsOutOfRange length (s_cap mem)), st).
Proof.
  intros Hbad. unfold clearMemorySecure. unfold bind at 1.
  cbn [for_loop]. unfold bind at 1. unfold bind at 1.
  rewrite slice_to_Panic by exact Hbad. reflexivity.
Qed.

Lemma clearMemorySecure_out_of_capacity_witness :
  clearMemorySecure wide_buffer 2049 wide_store =
  (Panic (SliceBoundsOutOfRange 2049 (s_cap wide_buffer)), wide_store).
Proof.
  apply (clearMemorySecure_out_of_capacity wide_buffer 2049 wide_store).
  simpl. lia.
Defined.

(** The zero loop asked to go past the end of the slice: it zeroes up to
    the end and panics there. *)
Lemma zero_loop_panics mem m i (st : Store) :
  0 <= s_off mem -> 0 <= i <= s_len mem -> s_len mem < i + Z.of_nat m ->
  for_loop m i (fun i => index_set mem i x00) st =
  (Panic (IndexOutOfRange (s_len mem) (s_len mem)),
   set_arrays (alter (zero_from (Z.to_nat (s_len mem - i)) (Z.to_nat (s_off mem + i)))
                 (s_arr mem)) st).
Proof.
  intros Hoff. revert i st. induction m as [|m IH]; intros i st Hi Hm; [lia|].
  cbn [for_loop]. destruct (Z.eq_dec i (s_len mem)) as [->|Hne].
  - unfold bind, index_set.
    replace (s_len mem <? s_len mem) with false by (symmetry; apply Z.ltb_irrefl).
    rewrite andb_false_r. unfold panic.
    rewrite Z.sub_diag. cbn [Z.to_nat zero_from]. unfold set_arrays.
    rewrite list_alter_id by reflexivity. rewrite Store_eta. reflexivity.
  - erewrite bind_Ok; cycle 1.
    { unfold index_set.
      replace (0 <=? i) with true by (symmetry; apply Z.leb_le; lia).
      replace (i <? s_len mem) with true by (symmetry; apply Z.ltb_lt; lia).
      reflexivity. }
    rewrite IH by lia. unfold set_arrays. cbn [arrays entropy reads stdout].
    f_equal. f_equal. rewrite list_alter_alter_eq.
    replace (Z.to_nat (s_len mem - i)) with (S (Z.to_nat (s_len mem - (i + 1)))) by lia.
    replace (Z.to_nat (s_off mem + (i + 1))) with (S (Z.to_nat (s_off mem + i))) by lia.
    reflexivity.
Qed.

(** After [k >= 1] passes the block holds what the last read delivered. *)
Lemma lookup_passes_last ent off n k call (l : list byte) j :
  (off + n <= List.length l)%nat -> (j < n)%nat ->
  (n <= List.length (ent (call + k)%nat n))%nat ->
  passes ent off n (S k) call l !! (off + j)%nat = ent (call + k)%nat n !! j.
Proof.
  revert call l. induction k as [|k IH]; intros call l Hb Hj Hd.
  - cbn [passes]. rewrite Nat.add_0_r in *.
    rewrite lookup_write_at_in by (rewrite ?length_take; lia).
    replace (off + j - off)%nat with j by lia.
    apply lookup_take_lt. exact Hj.
  - change (passes ent off n (S (S k)) call l)
      with (passes ent off n (S k) (S call) (write_at off (take n (ent call n)) l)).
    replace (call + S k)%nat with (S call + k)%nat in * by lia.
    apply IH; [|exact Hj | exact Hd].
    rewrite length_write_at; [lia|]. rewrite length_take. lia.
Qed.

(** X3.  A length beyond the length of the slice but within its capacity:
    the ten random passes run over all [length] bytes, the zero loop
    zeroes the [len(mem)] bytes of the slice and then panics on the index
    [len(mem)], so that the bytes from [len(mem)] to [length] are left
    holding the last random pass. *)
Theorem clearMemorySecure_beyond_length mem length (st : Store) :
  valid st mem = true -> s_len mem < length <= s_cap mem ->
  (Z.to_nat length <=
   List.length (entropy st (List.length (reads st) + 9) (Z.to_nat length)))%nat ->
  exists st',
    clearMemorySecure mem length st =
      (Panic (IndexOutOfRange (s_len mem) (s_len mem)), st') /\
    reads st' = replicate 10 (Z.to_nat length) ++ reads st /\
    (forall j, (j < Z.to_nat (s_len mem))%nat ->
               byte_at st' (s_arr mem) (Z.to_nat (s_off mem) + j) = Some x00) /\
    (forall j, (Z.to_nat (s_len mem) <= j < Z.to_nat length)%nat ->
               byte_at st' (s_arr mem) (Z.to_nat (s_off mem) + j) =
               entropy st (List.length (reads st) + 9) (Z.to_nat length) !! j).
Proof.
  intros Hv Hlen Hd.
  pose proof (valid_inv st mem Hv) as (Hoff & Hcap & l & Hl & Hb).
  unfold clearMemorySecure.
  erewrite bind_Ok by (apply rand_passes_run; lia).
  rewrite zero_loop_panics by (cbn [s_off s_len]; lia).
  eexists. split; [reflexivity|]. split; [reflexivity|].
  set (P := passes (entropy st) (Z.to_nat (s_off mem)) (Z.to_nat length) 10
              (List.length (reads st)) l).
  assert (HP : List.length P = List.length l) by (apply length_passes; lia).
  assert (Hat : forall j,
    byte_at (set_arrays
               (alter (zero_from (Z.to_nat (s_len mem - 0)) (Z.to_nat (s_off mem + 0)))
                  (s_arr mem))
               {| arrays := alter (passes (entropy st) (Z.to_nat (s_off mem))
                                     (Z.to_nat length) 10 (List.length (reads st)))
                              (s_arr mem) (arrays st);
                  entropy := entropy st;
                  reads := replicate 10 (Z.to_nat length) ++ reads st;
                  stdout := stdout st |}) (s_arr mem) j =
    write_at (Z.to_nat (s_off mem)) (replicate (Z.to_nat (s_len mem)) x00) P !! j).
  { intros j. unfold byte_at, set_arrays. cbn [arrays].
    rewrite !list_lookup_alter_eq, Hl. cbn [fmap option_fmap option_map].
    rewrite Z.sub_0_r, Z.add_0_r. fold P.
    rewrite zero_from_block by lia. reflexivity. }
  split.
  - intros j Hj. rewrite Hat.
    rewrite lookup_write_at_in by (rewrite length_replicate; lia).
    apply lookup_replicate_2. lia.
  - intros j Hj. rewrite Hat.
    rewrite lookup_write_at_out by (rewrite length_replicate; lia).
    subst P. apply lookup_passes_last; lia.
Qed.

Lemma clearMemorySecure_beyond_length_witness :
  exists st',
    clearMemorySecure {| s_arr := 0; s_off := 0; s_len := 4; s_cap := 16 |} 8 demo_store =
      (Panic (IndexOutOfRange 4 4), st') /\
    reads st' = replicate 10 (Z.to_nat 8) ++ reads demo_store /\
    (forall j, (j < Z.to_nat 4)%nat ->
               byte_at st' 0 (Z.to_nat 0 + j) = Some x00) /\
    (forall j, (Z.to_nat 4 <= j < Z.to_nat 8)%nat ->
               byte_at st' 0 (Z.to_nat 0 + j) =
               entropy demo_store (List.length (reads demo_store) + 9) (Z.to_nat 8) !! j).
Proof.
  apply (clearMemorySecure_beyond_length
           {| s_arr := 0; s_off := 0; s_len := 4; s_cap := 16 |} 8 demo_store).
  - reflexivity.
  - simpl. lia.
  - simpl. lia.
Defined.

(** *** Where the windows start *)

Lemma int_of_byte_range b : 0 <= int_of_byte b <= 255.
Proof.
  unfold int_of_byte. pose proof (Byte.to_N_bounded b) as H.
  split; [apply N2Z.is_nonneg|]. apply N2Z.inj_le in H. exact H.
Qed.





(** X5.  The offset of Method 1: a buffer of at most 100 bytes is returned
    whole and no random byte is read; on a longer one a single random
    byte is read and the window is [buffer[offset:]] with
    [0 <= offset <= 255] and [offset < len(buffer) - 100], so that it
    keeps more than 100 bytes and ends where the buffer ends. *)
Theorem tail_after_one_byte_offset buffer (st : Store) :
  0 <= s_len buffer ->
  exists w st',
    createMemoryAddressingWithRandomOffset buffer st = (Ok w, st') /\
    s_arr w = s_arr buffer /\
    slack_after buffer w = 0 /\
    (s_len buffer <= 100 -> w = buffer /\ st' = st) /\
    (100 < s_len buffer ->
     0 <= slack_before buffer w <= 255 /\
     100 < s_len w /\
     reads st' = 1%nat :: reads st /\
     take (List.length (arrays st)) (arrays st') = arrays st).
Proof.
  intros Hlen. unfold createMemoryAddressingWithRandomOffset.
  destruct (s_len buffer - 100 >? 0) eqn:Emax.
  - assert (Hbig : 100 < s_len buffer) by lia.
    erewrite bind_Ok; cycle 1.
    { erewrite bind_Ok by reflexivity.
      erewrite bind_Ok by reflexivity.
      erewrite bind_Ok by reflexivity.
      reflexivity. }
    match goal with
    | |- context [Z.rem (int_of_byte ?b) ?m] =>
        pose proof (int_of_byte_range b) as Hbyte;
        pose proof (Z.rem_bound_pos (int_of_byte b) m ltac:(lia) ltac:(lia)) as Hrem;
        pose proof (Z.rem_le (int_of_byte b) m ltac:(lia) ltac:(lia)) as Hle;
        set (offset := Z.rem (int_of_byte b) m) in *
    end.
    unfold slice_from.
    replace (0 <=? offset) with true by (symmetry; apply Z.leb_le; lia).
    replace (offset <=? s_len buffer) with true by (symmetry; apply Z.leb_le; lia).
    cbn [andb]. unfold ret. eexists _, _. split; [reflexivity|].
    unfold slack_before, slack_after. store_simpl.
    split; [reflexivity|]. split; [lia|]. split; [lia|]. intros _.
    split; [lia|]. split; [lia|]. split; [reflexivity|].
    rewrite take_alter_ge by lia. apply take_app_length.
  - assert (Hsmall : s_len buffer <= 100) by lia.
    erewrite bind_Ok by reflexivity.
    unfold slice_from.
    replace (0 <=? 0) with true by reflexivity.
    replace (0 <=? s_len buffer) with true by (symmetry; apply Z.leb_le; lia).
    cbn [andb]. unfold ret. rewrite Z.add_0_r, !Z.sub_0_r.
    exists buffer, st. split; [destruct buffer; reflexivity|].
    unfold slack_after. split; [reflexivity|]. split; [lia|].
    split; [intros _; split; reflexivity | lia].
Qed.

Lemma tail_after_one_byte_offset_witness :
  (exists w st',
     createMemoryAddressingWithRandomOffset wide_buffer wide_store = (Ok w, st') /\
     0 <= slack_before wide_buffer w <= 255 /\
     100 < s_len w /\
     reads st' = 1%nat :: reads wide_store /\
     take (List.length (arrays wide_store)) (arrays st') = arrays wide_store) /\
  (exists w st',
     createMemoryAddressingWithRandomOffset (workingMemory demo_manager) demo_store =
       (Ok w, st') /\
     w = workingMemory demo_manager /\ st' = demo_store).
Proof.
  split.
  - destruct (tail_after_one_byte_offset wide_buffer wide_store ltac:(simpl; lia))
      as (w & st' & Hrun & _ & _ & _ & Hbig).
    exists w, st'. split; [exact Hrun|]. apply Hbig. simpl. lia.
  - destruct (tail_after_one_byte_offset (workingMemory demo_manager) demo_store
                ltac:(simpl; lia))
      as (w & st' & Hrun & _ & _ & Hsmall & _).
    exists w, st'. split; [exact Hrun|]. apply Hsmall. simpl. lia.
Defined.

(** *** The three ways [NewSecureMemoryManager] ends *)

(** The run of [NewSecureMemoryManager] on a size that [make] accepts:
    the outcome is decided by the read that fills the window and by the
    length of the window. *)
Lemma NewSecureMemoryManager_run size (st : Store) :
  0 <= size ->
  exists offset extra k,
    0 <= offset <= size /\
    (size < 256 -> offset = 0) /\
    (256 <= size -> 64 <= offset <= size - 192) /\
    let base := {| s_arr := List.length (arrays st); s_off := 0;
                   s_len := size; s_cap := size |} in
    let working := {| s_arr := List.length (arrays st); s_off := 0 + offset;
                      s_len := size - offset; s_cap := size - offset |} in
    let n := Z.to_nat (size - offset) in
    let got := take n (entropy st (List.length (k ++ reads st)) n) in
    let st3 :=
      {| arrays := alter (write_at (Z.to_nat (0 + offset)) got)
                     (List.length (arrays st))
                     ((arrays st ++ [replicate (Z.to_nat size) x00]) ++ extra);
         entropy := entropy st;
         reads := n :: k ++ reads st;
         stdout := stdout st |} in
    NewSecureMemoryManager size st =
    if (List.length got <? n)%nat then (Exit 1, st3)
    else if 16 <=? size - offset
         then (Ok {| baseBuffer := base; workingMemory := working;
                     bufferSize := size; dataLength := 0 |},
               log_output
                 (Printed "1. Only working memory filled with random (first 16 bytes): %x\n"
                    (contents st3 {| s_arr := List.length (arrays st);
                                     s_off := 0 + offset; s_len := 16;
                                     s_cap := size - offset |})) st3)
         else (Panic (SliceBoundsOutOfRange 16 (size - offset)), st3).
Proof.
  intros Hsize. unfold NewSecureMemoryManager.
  erewrite bind_Ok; cycle 1.
  { unfold make. replace (size <? 0) with false by (symmetry; apply Z.ltb_ge; lia).
    reflexivity. }
  match goal with
  | |- context [bind (createMemoryAddressingWithRandomOffsetStruct ?b) _ ?s] =>
      destruct (createMemoryAddressing_run b s ltac:(cbn; lia))
        as (offset & extra & k & Hoff & Hsmall & Hlarge & Hrun)
  end.
  exists offset, extra, k. cbn [s_len] in Hoff, Hsmall, Hlarge.
  split; [exact Hoff|]. split; [exact Hsmall|]. split; [exact Hlarge|].
  cbv zeta.
  erewrite bind_Ok by exact Hrun. clear Hrun. store_simpl.
  erewrite bind_Ok by reflexivity. store_simpl.
  unfold store_bytes, set_arrays, log_read. store_simpl.
  destruct (_ <? _)%nat eqn:Eerr; [reflexivity|].
  erewrite bind_Ok by reflexivity.
  destruct (16 <=? size - offset) eqn:E16.
  - erewrite bind_Ok by (apply slice_to_Ok; cbn [s_cap]; lia).
    reflexivity.
  - unfold bind at 1. rewrite slice_to_Panic by (cbn [s_cap]; lia). reflexivity.
Qed.



(** X7.  Sizes that cannot hold a manager: a negative size panics in
    [make] and leaves the store as it was; a size from 0 to 15 panics,
    once the region is allocated and filled, in [workingMemory[:16]] of
    the first progress line. *)
Theorem NewSecureMemoryManager_too_small size (st : Store) :
  (size < 0 -> NewSecureMemoryManager size st = (Panic MakeSliceLenOutOfRange, st)) /\
  (0 <= size < 16 -> delivers st ->
   exists st', NewSecureMemoryManager size st =
               (Panic (SliceBoundsOutOfRange 16 size), st')).
Proof.
  split.
  - intros Hneg. unfold NewSecureMemoryManager, bind, make.
    replace (size <? 0) with true by (symmetry; apply Z.ltb_lt; lia). reflexivity.
  - intros Hsize Hent.
    destruct (NewSecureMemoryManager_run size st ltac:(lia))
      as (offset & extra & k & Hoff & Hsmall & _ & Hrun).
    cbv zeta in Hrun. rewrite Hsmall in Hrun by lia.
    rewrite length_take, Nat.min_l, Nat.ltb_irrefl in Hrun by apply Hent.
    replace (16 <=? size - 0) with false in Hrun by (symmetry; apply Z.leb_gt; lia).
    rewrite Z.sub_0_r in Hrun. eexists. exact Hrun.
Qed.

Lemma NewSecureMemoryManager_too_small_witness :
  NewSecureMemoryManager (-1) empty_store = (Panic MakeSliceLenOutOfRange, empty_store) /\
  exists st', NewSecureMemoryManager 15 empty_store =
              (Panic (SliceBoundsOutOfRange 16 15), st').
Proof.
  split.
  - apply (NewSecureMemoryManager_too_small (-1) empty_store). lia.
  - apply (NewSecureMemoryManager_too_small 15 empty_store); [lia|].
    intros k n. simpl. rewrite length_replicate. lia.
Defined.



(** *** What every manager state satisfies *)

(** X9.  In every state a manager reaches through
    [NewSecureMemoryManager], [CopyData] and [ClearSecure], the working
    memory is the tail of the base buffer inside one array, it is at least
    16 bytes long with no spare capacity, and [dataLength] lies between 0
    and the length of the window. *)
Theorem reachable_invariant sm st :
  reachable sm st ->
  s_arr (workingMemory sm) = s_arr (baseBuffer sm) /\
  s_off (baseBuffer sm) <= s_off (workingMemory sm) /\
  s_off (workingMemory sm) + s_len (workingMemory sm) =
    s_off (baseBuffer sm) + s_len (baseBuffer sm) /\
  s_cap (workingMemory sm) = s_len (workingMemory sm) /\
  16 <= s_len (workingMemory sm) /\
  0 <= dataLength sm <= s_len (workingMemory sm) /\
  exists l, arrays st !! s_arr (workingMemory sm) = Some l /\
            (window_hi sm <= List.length l)%nat.
Proof.
  intros Hreach. pose proof (reachable_ok sm st Hreach) as Hok.
  destruct (manager_ok_array sm st Hok) as (l & Hl & Hhi & _).
  apply manager_ok_inv in Hok as (_ & _ & Ha & Ho & He & Hc & H16 & Hd).
  repeat (split; [assumption|]). exists l. split; assumption.
Qed.

Lemma reachable_invariant_witness :
  exists sm st,
    NewSecureMemoryManager 300 empty_store = (Ok sm, st) /\
    s_arr (workingMemory sm) = s_arr (baseBuffer sm) /\
    s_off (baseBuffer sm) <= s_off (workingMemory sm) /\
    s_off (workingMemory sm) + s_len (workingMemory sm) =
      s_off (baseBuffer sm) + s_len (baseBuffer sm) /\
    s_cap (workingMemory sm) = s_len (workingMemory sm) /\
    16 <= s_len (workingMemory sm) /\
    0 <= dataLength sm <= s_len (workingMemory sm) /\
    exists l, arrays st !! s_arr (workingMemory sm) = Some l /\
              (window_hi sm <= List.length l)%nat.
Proof.
  eexists _, _. split; [vm_compute; reflexivity|].
  apply reachable_invariant.
  apply (reach_new 300 empty_store). vm_compute. reflexivity.
Defined.

(** *** A shorter write over a longer one *)

(** X10.  [ClearSecure] clears the length of the last write only: when
    longer data were written first and shorter data over them with no
    clear in between, the clear zeroes the shorter length and the bytes
    of the longer data beyond it stay in the window. *)
Theorem ClearSecure_clears_last_write_only sm d1 d2 (st : Store) :
  manager_ok sm st = true ->
  (List.length d2 < List.length d1)%nat ->
  Z.of_nat (List.length d1) <= s_len (workingMemory sm) ->
  exists sm1 st1 sm2 st2 sm3 st3,
    CopyData sm d1 st = (Ok sm1, st1) /\
    CopyData sm1 d2 st1 = (Ok sm2, st2) /\
    ClearSecure sm2 st2 = (Ok sm3, st3) /\
    dataLength sm3 = 0 /\
    (forall j, (j < List.length d2)%nat ->
               byte_at st3 (s_arr (workingMemory sm)) (window_lo sm + j) = Some x00) /\
    (forall j, (List.length d2 <= j < List.length d1)%nat ->
               byte_at st3 (s_arr (workingMemory sm)) (window_lo sm + j) = d1 !! j).
Proof.
  intros Hok Hshort Hfit.
  destruct (CopyData_arrays sm d1 st Hok Hfit) as (st1 & Hrun1 & Harr1 & _ & Hok1).
  destruct (CopyData_arrays _ d2 st1 Hok1 ltac:(cbn [set_dataLength workingMemory]; lia))
    as (st2 & Hrun2 & Harr2 & _ & Hok2).
  destruct (ClearSecure_arrays _ st2 Hok2) as (st3 & Hrun3 & Harr3 & _).
  cbn [set_dataLength workingMemory dataLength] in *.
  change (window_lo (set_dataLength _ _)) with (window_lo sm) in *.
  rewrite Nat2Z.id in Harr3.
  eexists _, st1, _, st2, _, st3.
  split; [exact Hrun1|]. split; [exact Hrun2|]. split; [exact Hrun3|].
  split; [reflexivity|].
  assert (H3 : forall j,
    byte_at st3 (s_arr (workingMemory sm)) (window_lo sm + j) =
    if decide (j < List.length d2)%nat then Some x00
    else byte_at st2 (s_arr (workingMemory sm)) (window_lo sm + j)).
  { intros j.
    rewrite (byte_at_window_block _ st2 st3 (replicate (List.length d2) x00) _ _ Hok2)
      by (rewrite ?length_replicate; cbn [set_dataLength workingMemory];
          first [lia | exact Harr3]).
    rewrite length_replicate. cbn [set_dataLength workingMemory].
    change (window_lo (set_dataLength _ _)) with (window_lo sm).
    destruct (decide (j < List.length d2)%nat) as [Hj|Hj].
    - rewrite decide_True by (split; [reflexivity | lia]).
      apply lookup_replicate_2. lia.
    - rewrite decide_False by (intros [_ ?]; lia). reflexivity. }
  split.
  - intros j Hj. rewrite H3, decide_True by exact Hj. reflexivity.
  - intros j Hj. rewrite H3, decide_False by lia.
    rewrite (byte_at_window_block _ st1 st2 d2 _ _ Hok1)
      by (cbn [set_dataLength workingMemory]; first [lia | exact Harr2]).
    cbn [set_dataLength workingMemory].
    change (window_lo (set_dataLength _ _)) with (window_lo sm).
    rewrite decide_False by (intros [_ ?]; lia).
    rewrite (byte_at_window_block sm st st1 d1 _ _ Hok Hfit Harr1).
    rewrite decide_True by (split; [reflexivity | lia]).
    f_equal. lia.
Qed.

Lemma ClearSecure_clears_last_write_only_witness :
  exists sm1 st1 sm2 st2 sm3 st3,
    CopyData demo_manager demo_data demo_store = (Ok sm1, st1) /\
    CopyData sm1 [x21; x21] st1 = (Ok sm2, st2) /\
    ClearSecure sm2 st2 = (Ok sm3, st3) /\
    dataLength sm3 = 0 /\
    (forall j, (j < List.length [x21; x21])%nat ->
               byte_at st3 (s_arr (workingMemory demo_manager))
                 (window_lo demo_manager + j) = Some x00) /\
    (forall j, (List.length [x21; x21] <= j < List.length demo_data)%nat ->
               byte_at st3 (s_arr (workingMemory demo_manager))
                 (window_lo demo_manager + j) = demo_data !! j).
Proof.
  apply (ClearSecure_clears_last_write_only demo_manager demo_data [x21; x21] demo_store).
  - reflexivity.
  - simpl. lia.
  - simpl. lia.
Defined.

(** *** Clearing twice *)

(** Zero bytes written inside a block of zero bytes change nothing. *)
Lemma write_zeros_inside om m ow n (l : list byte) :
  (om + m <= List.length l)%nat -> (om <= ow)%nat -> (ow + n <= om + m)%nat ->
  write_at ow (replicate n x00) (write_at om (replicate m x00) l) =
  write_at om (replicate m x00) l.
Proof.
  intros Hb Hlo Hhi. apply list_eq. intros j.
  assert (Hl : List.length (write_at om (replicate m x00) l) = List.length l)
    by (apply length_write_at; rewrite length_replicate; lia).
  destruct (decide (ow <= j < ow + n)%nat) as [Hin|Hout].
  - rewrite lookup_write_at_in by (rewrite length_replicate; lia).
    rewrite lookup_write_at_in by (rewrite length_replicate; lia).
    rewrite !lookup_replicate_2 by lia. reflexivity.
  - rewrite lookup_write_at_out by (rewrite length_replicate; lia). reflexivity.
Qed.

(** X11.  Clearing a slice and then clearing any part of it again, as
    Method 1 does, is work without effect: the second call makes its ten
    random reads and zero pass, and every array ends as the first call
    had left it. *)
Theorem clearing_again_changes_nothing mem length part n (st : Store) :
  valid st mem = true -> 0 <= length <= s_len mem ->
  valid st part = true -> 0 <= n <= s_len part ->
  s_arr part = s_arr mem ->
  s_off mem <= s_off part -> s_off part + n <= s_off mem + length ->
  exists st1 st2,
    clearMemorySecure mem length st = (Ok tt, st1) /\
    clearMemorySecure part n st1 = (Ok tt, st2) /\
    arrays st2 = arrays st1 /\
    reads st2 = replicate 10 (Z.to_nat n) ++ reads st1.
Proof.
  intros Hv Hlen Hvp Hn Harr Hlo Hhi.
  pose proof (valid_inv st mem Hv) as (Hoff & Hcap & l & Hl & Hb).
  pose proof (valid_inv st part Hvp) as (Hoffp & Hcapp & _).
  exists (cleared mem length st), (cleared part n (cleared mem length st)).
  split; [apply clearMemorySecure_run; assumption|].
  split.
  - apply clearMemorySecure_run; [|exact Hn].
    rewrite (valid_same_arrays
               (set_arrays (alter (write_at (Z.to_nat (s_off mem))
                                     (replicate (Z.to_nat length) x00)) (s_arr mem)) st))
      by reflexivity.
    rewrite valid_block; [exact Hvp|].
    intros l' Hl'. rewrite Hl in Hl'. injection Hl' as <-.
    rewrite length_replicate. lia.
  - split; [|reflexivity].
    cbn [cleared arrays]. rewrite Harr, list_alter_alter_eq.
    apply list_alter_ext; [|reflexivity].
    intros x Hx. rewrite Hl in Hx. injection Hx as <-. unfold compose.
    apply write_zeros_inside; lia.
Qed.

Lemma clearing_again_changes_nothing_witness :
  exists st1 st2,
    clearMemorySecure wide_buffer 2048 wide_store = (Ok tt, st1) /\
    clearMemorySecure {| s_arr := 0; s_off := 165; s_len := 1883; s_cap := 1883 |} 36 st1 =
      (Ok tt, st2) /\
    arrays st2 = arrays st1 /\
    reads st2 = replicate 10 (Z.to_nat 36) ++ reads st1.
Proof.
  apply (clearing_again_changes_nothing wide_buffer 2048
           {| s_arr := 0; s_off := 165; s_len := 1883; s_cap := 1883 |} 36 wide_store);
    try reflexivity; simpl; lia.
Defined.

(** *** The two methods and the program *)

Lemma alter_middle {A} (f : A -> A) (l1 l2 : list A) x :
  alter f (List.length l1) (l1 ++ x :: l2) = l1 ++ f x :: l2.
Proof.
  rewrite <- (Nat.add_0_r (List.length l1)) at 1. rewrite alter_app_r. reflexivity.
Qed.

(** The run of [createMemoryAddressingWithRandomOffset] on a buffer of
    more than 100 bytes. *)
Lemma one_byte_offset_run buffer (st : Store) :
  100 < s_len buffer ->
  exists offset tmp,
    0 <= offset <= 255 /\ offset < s_len buffer - 100 /\
    createMemoryAddressingWithRandomOffset buffer st =
    (Ok {| s_arr := s_arr buffer; s_off := s_off buffer + offset;
           s_len := s_len buffer - offset; s_cap := s_cap buffer - offset |},
     {| arrays := arrays st ++ [tmp]; entropy := entropy st;
        reads := 1%nat :: reads st; stdout := stdout st |}).
Proof.
  intros Hbig. unfold createMemoryAddressingWithRandomOffset.
  replace (s_len buffer - 100 >? 0) with true by (symmetry; apply Z.gtb_lt; lia).
  erewrite bind_Ok; cycle 1.
  { erewrite bind_Ok by reflexivity.
    erewrite bind_Ok by reflexivity.
    erewrite bind_Ok by reflexivity.
    reflexivity. }
  match goal with
  | |- context [Z.rem (int_of_byte ?b) ?m] =>
      pose proof (int_of_byte_range b) as Hbyte;
      pose proof (Z.rem_bound_pos (int_of_byte b) m ltac:(lia) ltac:(lia)) as Hrem;
      pose proof (Z.rem_le (int_of_byte b) m ltac:(lia) ltac:(lia)) as Hle;
      set (offset := Z.rem (int_of_byte b) m) in *
  end.
  unfold slice_from.
  replace (0 <=? offset) with true by (symmetry; apply Z.leb_le; lia).
  replace (offset <=? s_len buffer) with true by (symmetry; apply Z.leb_le; lia).
  cbn [andb]. unfold ret. exists offset. eexists.
  split; [lia|]. split; [lia|]. f_equal.
  unfold store_bytes, set_arrays, log_read. store_simpl. f_equal.
  rewrite alter_app_r_alt by lia. rewrite Nat.sub_diag. reflexivity.
Qed.

Lemma write_zeros_in_zeros ow n m :
  (ow + n <= m)%nat ->
  write_at ow (replicate n x00) (replicate m x00) = replicate m x00.
Proof.
  intros H.
  rewrite <- (write_at_whole (replicate m x00) (replicate m x00)) at 1 by reflexivity.
  rewrite write_zeros_inside by (rewrite ?length_replicate; lia).
  apply write_at_whole. reflexivity.
Qed.

Ltac flatten_store :=
  unfold store_bytes, set_arrays, log_read, log_output, cleared; store_simpl.

(** The run of [method1] once the fill of the whole buffer has succeeded. *)
Lemma method1_run (st : Store) :
  (1024 <= List.length (entropy st (List.length (reads st)) 1024))%nat ->
  exists st' tmp,
    method1 st = (Ok tt, st') /\
    arrays st' = arrays st ++ [replicate 1024 x00; tmp] /\
    reads st' = replicate 10 36%nat ++ replicate 10 1024%nat
                ++ 1%nat :: 1024%nat :: reads st /\
    entropy st' = entropy st.
Proof.
  intros Hfill. unfold method1.
  remember (list_byte_of_string "sensitive data that needs protection") as data eqn:Edata.
  assert (Hdata : List.length data = 36%nat) by (subst data; reflexivity).
  rewrite Hdata. change (Z.of_nat 36) with 36.
  erewrite bind_Ok by reflexivity.
  erewrite bind_Ok by reflexivity.
  erewrite bind_Ok by reflexivity.
  flatten_store.
  change (Z.to_nat 1024) with 1024%nat. change (Z.to_nat 0) with 0%nat.
  rewrite length_take, Nat.min_l by exact Hfill.
  rewrite Nat.ltb_irrefl, alter_middle.
  set (y1 := write_at 0 _ (replicate 1024 x00)).
  assert (Hy1 : List.length y1 = 1024%nat).
  { subst y1. rewrite length_write_at; rewrite ?length_replicate, ?length_take; lia. }
  erewrite bind_Ok by reflexivity.
  erewrite bind_Ok by (apply slice_to_Ok; cbn [s_cap]; lia).
  erewrite bind_Ok by reflexivity. flatten_store.
  match goal with
  | |- context [bind (createMemoryAddressingWithRandomOffset ?b) _ ?s] =>
      destruct (one_byte_offset_run b s ltac:(cbn [s_len]; lia))
        as (offset & tmp & Hoff & Hroom & Hdraw)
  end.
  cbn [s_len] in Hroom.
  erewrite bind_Ok by exact Hdraw. clear Hdraw. store_simpl.
  rewrite <- app_assoc. cbn [app].
  erewrite bind_Ok by reflexivity.
  erewrite bind_Ok by (apply slice_to_Ok; cbn [s_cap]; lia).
  erewrite bind_Ok by reflexivity.
  erewrite bind_Ok by (apply slice_to_Ok; cbn [s_cap]; lia).
  erewrite bind_Ok by reflexivity. flatten_store.
  rewrite alter_middle.
  rewrite Z.min_l, take_ge by lia.
  set (y2 := write_at (Z.to_nat (0 + offset)) data y1).
  assert (Hy2 : List.length y2 = 1024%nat).
  { subst y2. rewrite length_write_at; lia. }
  assert (Hvalid : forall y rd out s,
            List.length y = 1024%nat ->
            0 <= s_off s -> 0 <= s_len s <= s_cap s -> s_off s + s_cap s <= 1024 ->
            s_arr s = List.length (arrays st) ->
            valid {| arrays := arrays st ++ [y; tmp]; entropy := entropy st;
                     reads := rd; stdout := out |} s = true).
  { intros y rd out s Hy H1 H2 H3 H4. unfold valid. cbn [arrays].
    rewrite H4, list_lookup_middle by reflexivity. rewrite Hy.
    repeat (apply andb_true_intro; split); apply Z.leb_le; lia. }
  erewrite bind_Ok by (apply clearMemorySecure_run;
                       [apply Hvalid; cbn [s_arr s_off s_len s_cap]; lia
                       | cbn [s_len]; lia]).
  flatten_store. change (Z.to_nat 1024) with 1024%nat. change (Z.to_nat 0) with 0%nat.
  rewrite alter_middle. rewrite write_at_whole; [|rewrite length_replicate; lia].
  erewrite bind_Ok by (apply slice_to_Ok; cbn [s_cap]; lia).
  erewrite bind_Ok by reflexivity. flatten_store.
  erewrite bind_Ok by (apply clearMemorySecure_run;
                       [apply Hvalid; rewrite ?length_replicate;
                        cbn [s_arr s_off s_len s_cap]; lia
                       | cbn [s_len]; lia]).
  flatten_store. change (Z.to_nat 36) with 36%nat.
  rewrite alter_middle, write_zeros_in_zeros by lia.
  erewrite bind_Ok by (apply slice_to_Ok; cbn [s_cap]; lia).
  erewrite bind_Ok by reflexivity. flatten_store.
  unfold ret. eexists _, tmp. split; [reflexivity|].
  cbn [arrays reads entropy]. repeat split.
Qed.

(** X12.  Method 1 clears twice.  Whenever the random fill of its
    1024-byte buffer succeeds, [method1] returns; the buffer, filled with
    random bytes and written to at a random offset, ends as 1024 zero
    bytes; the arrays that existed are untouched; and twenty random
    passes were made for it, ten over the 1024 bytes and ten more over
    the 36 bytes of the data inside them. *)
Theorem method1_clears_twice (st : Store) :
  (1024 <= List.length (entropy st (List.length (reads st)) 1024))%nat ->
  exists st' tmp,
    method1 st = (Ok tt, st') /\
    arrays st' = arrays st ++ [replicate 1024 x00; tmp] /\
    reads st' = replicate 10 36%nat ++ replicate 10 1024%nat
                ++ 1%nat :: 1024%nat :: reads st.
Proof.
  intros Hfill.
  destruct (method1_run st Hfill) as (st' & tmp & Hrun & Harr & Hreads & _).
  exists st', tmp. repeat split; assumption.
Qed.

Lemma method1_clears_twice_witness :
  exists st' tmp,
    method1 empty_store = (Ok tt, st') /\
    arrays st' = arrays empty_store ++ [replicate 1024 x00; tmp] /\
    reads st' = replicate 10 36%nat ++ replicate 10 1024%nat
                ++ 1%nat :: 1024%nat :: reads empty_store.
Proof.
  apply (method1_clears_twice empty_store).
  cbn [empty_store entropy]. rewrite length_replicate. lia.
Defined.

(** The run of [NewSecureMemoryManager] on a size of 256 or more, once
    the fill of the window has succeeded. *)
Lemma NewSecureMemoryManager_large_run size (st : Store) :
  256 <= size ->
  exists offset tmp,
    64 <= offset <= size - 192 /\
    let n := Z.to_nat (size - offset) in
    let got := take n (entropy st (S (List.length (reads st))) n) in
    let working := {| s_arr := List.length (arrays st); s_off := 0 + offset;
                      s_len := size - offset; s_cap := size - offset |} in
    let st1 := {| arrays := arrays st
                            ++ [write_at (Z.to_nat (0 + offset)) got
                                  (replicate (Z.to_nat size) x00); tmp];
                  entropy := entropy st;
                  reads := n :: 2%nat :: reads st;
                  stdout := stdout st |} in
    (n <= List.length (entropy st (S (List.length (reads st))) n))%nat ->
    NewSecureMemoryManager size st =
    (Ok {| baseBuffer := {| s_arr := List.length (arrays st); s_off := 0;
                            s_len := size; s_cap := size |};
           workingMemory := working; bufferSize := size; dataLength := 0 |},
     log_output
       (Printed "1. Only working memory filled with random (first 16 bytes): %x\n"
          (contents st1 {| s_arr := List.length (arrays st); s_off := 0 + offset;
                           s_len := 16; s_cap := size - offset |})) st1).
Proof.
  intros Hsize.
  destruct (createMemoryAddressing_large
              {| s_arr := List.length (arrays st); s_off := 0; s_len := size; s_cap := size |}
              (set_arrays (fun hp => hp ++ [replicate (Z.to_nat size) x00]) st)
              ltac:(cbn [s_len]; lia))
    as (offset & tmp & Hoff & Hdraw).
  cbn [s_len s_arr s_off s_cap] in Hoff, Hdraw.
  exists offset, tmp. split; [exact Hoff|]. cbv zeta. intros Hfill.
  unfold NewSecureMemoryManager.
  erewrite bind_Ok; cycle 1.
  { unfold make. replace (size <? 0) with false by (symmetry; apply Z.ltb_ge; lia).
    reflexivity. }
  erewrite bind_Ok by exact Hdraw.
  erewrite bind_Ok by reflexivity. flatten_store.
  rewrite length_take, Nat.min_l, Nat.ltb_irrefl by exact Hfill.
  erewrite bind_Ok by reflexivity.
  erewrite bind_Ok by (apply slice_to_Ok; cbn [s_cap]; lia).
  rewrite <- app_assoc. cbn [app]. rewrite alter_middle.
  reflexivity.
Qed.

(** The run of [method2] with a random source that delivers. *)
Lemma method2_returns (st : Store) :
  delivers st ->
  exists st' offset,
    method2 st = (Ok tt, st') /\
    64 <= offset <= 1856 /\
    take (List.length (arrays st)) (arrays st') = arrays st /\
    (forall j, (j < 28)%nat ->
       byte_at st' (List.length (arrays st)) (Z.to_nat offset + j) = Some x00) /\
    (forall j, (j < Z.to_nat offset)%nat ->
       byte_at st' (List.length (arrays st)) j = Some x00) /\
    (forall j, (28 <= j < Z.to_nat (2048 - offset))%nat ->
       byte_at st' (List.length (arrays st)) (Z.to_nat offset + j) =
       entropy st (S (List.length (reads st))) (Z.to_nat (2048 - offset)) !! j) /\
    reads st' = replicate 10 28%nat ++ Z.to_nat (2048 - offset) :: 2%nat :: reads st /\
    entropy st' = entropy st.
Proof.
  intros Hent. unfold method2.
  remember (list_byte_of_string "highly sensitive information") as data eqn:Edata.
  assert (Hdata : List.length data = 28%nat) by (subst data; reflexivity).
  erewrite bind_Ok by reflexivity.
  match goal with
  | |- context [bind (NewSecureMemoryManager 2048) _ ?s] =>
      destruct (NewSecureMemoryManager_large_run 2048 s ltac:(lia))
        as (offset & tmp & Hoff & Hnew)
  end.
  cbv zeta in Hnew. specialize (Hnew (Hent _ _)).
  cbn [log_output arrays entropy reads stdout] in Hnew.
  pose proof (NewSecureMemoryManager_Ok _ _ _ _ Hnew) as (Hok & _).
  erewrite bind_Ok by exact Hnew. clear Hnew.
  match type of Hok with manager_ok ?m ?s = true => set (sm := m) in *; set (st1 := s) in * end.
  assert (Hfit : Z.of_nat (List.length data) <= s_len (workingMemory sm))
    by (rewrite Hdata; unfold sm; cbn [workingMemory s_len]; lia).
  pose proof (CopyData_run sm data st1 Hok Hfit) as Hcopy. cbv zeta in Hcopy.
  destruct (CopyData_arrays sm data st1 Hok Hfit) as (st2 & Hcopy' & Harr2 & Hreads2 & Hok2).
  pose proof Hcopy' as Hst2. rewrite Hcopy in Hst2. injection Hst2 as Hst2.
  erewrite bind_Ok by exact Hcopy'. clear Hcopy.
  pose proof (ClearSecure_run _ st2 Hok2) as Hclear. cbv zeta in Hclear.
  destruct (ClearSecure_arrays _ st2 Hok2) as (st3 & Hclear' & Harr3 & _).
  pose proof Hclear' as Hst3. rewrite Hclear in Hst3. injection Hst3 as Hst3.
  erewrite bind_Ok by exact Hclear'. clear Hclear.
  unfold ret. exists st3, offset. split; [reflexivity|].
  split; [lia|].
  cbn [set_dataLength dataLength workingMemory] in Harr3.
  change (window_lo (set_dataLength _ sm)) with (window_lo sm) in Harr3.
  rewrite Hdata in Harr3. change (Z.to_nat (Z.of_nat 28)) with 28%nat in Harr3.
  assert (Hlo : window_lo sm = Z.to_nat offset) by (unfold window_lo, sm; cbn [workingMemory s_off]; lia).
  assert (Harr : s_arr (workingMemory sm) = List.length (arrays st)) by reflexivity.
  assert (Hbytes : forall j,
    byte_at st3 (List.length (arrays st)) j =
    if decide (Z.to_nat offset <= j < Z.to_nat offset + 28)%nat then Some x00
    else if decide (Z.to_nat offset <= j < Z.to_nat offset + 28)%nat
         then data !! (j - Z.to_nat offset)%nat
         else byte_at st1 (List.length (arrays st)) j).
  { intros j.
    rewrite (byte_at_window_block _ st2 st3 (replicate 28 x00) _ j Hok2)
      by (rewrite ?length_replicate; unfold sm; cbn [set_dataLength workingMemory s_len];
          first [lia | exact Harr3]).
    rewrite length_replicate. cbn [set_dataLength workingMemory].
    change (window_lo (set_dataLength _ sm)) with (window_lo sm). rewrite Hlo, Harr.
    destruct (decide (Z.to_nat offset <= j < Z.to_nat offset + 28)%nat) as [Hj|Hj].
    - rewrite decide_True by (split; [reflexivity | exact Hj]).
      apply lookup_replicate_2. lia.
    - rewrite decide_False by (intros [_ ?]; contradiction).
      rewrite (byte_at_window_block sm st1 st2 data _ j Hok Hfit Harr2).
      rewrite Hlo, Harr, Hdata.
      rewrite decide_False by (intros [_ ?]; contradiction). reflexivity. }
  assert (Hst1 : forall j,
    byte_at st1 (List.length (arrays st)) j =
    write_at (Z.to_nat (0 + offset))
      (take (Z.to_nat (2048 - offset))
         (entropy st (S (List.length (reads st))) (Z.to_nat (2048 - offset))))
      (replicate (Z.to_nat 2048) x00) !! j).
  { intros j. unfold byte_at. cbn [st1 arrays log_output].
    rewrite list_lookup_middle by reflexivity. reflexivity. }
  pose proof (Hent (S (List.length (reads st))) (Z.to_nat (2048 - offset))) as Hgot.
  split; [|split; [|split; [|split; [|split]]]].
  - rewrite Harr3, take_alter_ge by (rewrite Harr; lia).
    rewrite Harr2, take_alter_ge by (rewrite Harr; lia).
    cbn [st1 arrays log_output]. apply take_app_length.
  - intros j Hj. rewrite Hbytes, decide_True by lia. reflexivity.
  - intros j Hj. rewrite Hbytes, !decide_False by lia. rewrite Hst1.
    rewrite lookup_write_at_out by (rewrite ?length_take, ?length_replicate; lia).
    apply lookup_replicate_2. lia.
  - intros j Hj. rewrite Hbytes, !decide_False by lia. rewrite Hst1.
    rewrite lookup_write_at_in by (rewrite ?length_take, ?length_replicate; lia).
    replace (Z.to_nat offset + j - Z.to_nat (0 + offset))%nat with j by lia.
    apply lookup_take_lt. lia.
  - rewrite <- Hst3. cbn [reads log_output].
    destruct (dataLength (set_dataLength (Z.of_nat (List.length data)) sm) >? 0) eqn:E;
      [|cbn [set_dataLength dataLength] in E; lia].
    cbn [cleared reads set_dataLength dataLength]. rewrite <- Hst2, Hdata.
    reflexivity.
  - rewrite <- Hst3, <- Hst2, Hdata. reflexivity.
Qed.

(** X13.  Method 2 clears once.  With a random source that delivers,
    [method2] returns; in its 2048-byte region the window starts between
    64 and 1856 bytes in; the 28 bytes of the data end as zero after ten
    random passes over them alone; the bytes before the window are the
    zero bytes of the allocation, and the rest of the window still holds
    the random fill.  The arrays that existed are untouched. *)
Theorem method2_clears_once (st : Store) :
  delivers st ->
  exists st' offset,
    method2 st = (Ok tt, st') /\
    64 <= offset <= 1856 /\
    take (List.length (arrays st)) (arrays st') = arrays st /\
    (forall j, (j < 28)%nat ->
       byte_at st' (List.length (arrays st)) (Z.to_nat offset + j) = Some x00) /\
    (forall j, (j < Z.to_nat offset)%nat ->
       byte_at st' (List.length (arrays st)) j = Some x00) /\
    (forall j, (28 <= j < Z.to_nat (2048 - offset))%nat ->
       byte_at st' (List.length (arrays st)) (Z.to_nat offset + j) =
       entropy st (S (List.length (reads st))) (Z.to_nat (2048 - offset)) !! j) /\
    reads st' = replicate 10 28%nat ++ Z.to_nat (2048 - offset) :: 2%nat :: reads st.
Proof.
  intros Hent.
  destruct (method2_returns st Hent)
    as (st' & offset & Hrun & Hoff & Htake & Hzero & Hbefore & Hseed & Hreads & _).
  exists st', offset. repeat (split; [assumption|]). assumption.
Qed.

Lemma method2_clears_once_witness :
  exists st' offset,
    method2 empty_store = (Ok tt, st') /\
    64 <= offset <= 1856 /\
    take (List.length (arrays empty_store)) (arrays st') = arrays empty_store /\
    (forall j, (j < 28)%nat ->
       byte_at st' (List.length (arrays empty_store)) (Z.to_nat offset + j) = Some x00) /\
    (forall j, (j < Z.to_nat offset)%nat ->
       byte_at st' (List.length (arrays empty_store)) j = Some x00) /\
    (forall j, (28 <= j < Z.to_nat (2048 - offset))%nat ->
       byte_at st' (List.length (arrays empty_store)) (Z.to_nat offset + j) =
       entropy empty_store (S (List.length (reads empty_store)))
         (Z.to_nat (2048 - offset)) !! j) /\
    reads st' = replicate 10 28%nat ++ Z.to_nat (2048 - offset) :: 2%nat
                :: reads empty_store.
Proof.
  apply (method2_clears_once empty_store).
  intros k n. cbn [empty_store entropy]. rewrite length_replicate. lia.
Defined.




End SecureRegionFacts.

Module LockedBufferFacts.
Import LockedBuffer.

Local Open Scope go_scope.

Ltac os_simpl :=
  cbn [set_mappings log_call log_read mappings trace denied entropy reads
       set_bytes set_locked m_bytes m_locked addr size locked].

Lemma OS_eta (os : OS) :
  {| mappings := mappings os; trace := trace os; denied := denied os;
     entropy := entropy os; reads := reads os |} = os.
Proof. destruct os; reflexivity. Qed.

Lemma live_inv b os :
  live b os = true ->
  exists m, mappings os !! addr b = Some m /\
            0 < size b /\ Z.of_nat (List.length (m_bytes m)) = size b.
Proof.
  unfold live. destruct (mappings os !! addr b) as [m|]; [|discriminate].
  intros H. apply andb_prop in H as [H1 H2].
  apply Z.ltb_lt in H1. apply Z.eqb_eq in H2. eauto.
Qed.

(** A store inside a mapped region. *)
Lemma store_Ok p i bs m (os : OS) :
  mappings os !! p = Some m ->
  0 <= i -> i + Z.of_nat (List.length bs) <= Z.of_nat (List.length (m_bytes m)) ->
  store p i bs os =
  (Ok tt, set_mappings (insert p (set_bytes (write_at (Z.to_nat i) bs (m_bytes m)) m)) os).
Proof.
  intros Hm Hi Hb. unfold store. destruct bs as [|x bs].
  - rewrite write_at_nil. unfold set_mappings.
    replace (set_bytes (m_bytes m) m) with m by (destruct m; reflexivity).
    rewrite insert_id by exact Hm. rewrite OS_eta. reflexivity.
  - rewrite Hm.
    replace (0 <=? i) with true by (symmetry; apply Z.leb_le; lia).
    replace (i + Z.of_nat (List.length (x :: bs)) <=? Z.of_nat (List.length (m_bytes m)))
      with true by (symmetry; apply Z.leb_le; lia).
    reflexivity.
Qed.

(** *** Copying *)

(** Sizes that differ: [copyTo] returns at once. *)
Lemma copyTo_mismatch b dest (os : OS) :
  size b <> size dest -> copyTo b dest os = (Ok tt, os).
Proof.
  intros Hne. unfold copyTo.
  replace (size b =? size dest) with false by (symmetry; apply Z.eqb_neq; exact Hne).
  reflexivity.
Qed.

(** Equal sizes, both regions mapped: the bytes of the source replace
    those of the destination. *)
Lemma copyTo_match b dest (os : OS) src mdest :
  size b = size dest ->
  live b os = true -> live dest os = true ->
  region b os = Some src ->
  mappings os !! addr dest = Some mdest ->
  copyTo b dest os =
  (Ok tt, set_mappings (insert (addr dest) (set_bytes src mdest)) os).
Proof.
  intros Heq Hb Hd Hsrc Hdest.
  apply live_inv in Hb as (mb & Hmb & Hpos & Hlen).
  apply live_inv in Hd as (md & Hmd & Hposd & Hlend).
  rewrite Hdest in Hmd. injection Hmd as <-.
  unfold region in Hsrc. rewrite Hmb in Hsrc. cbn in Hsrc. injection Hsrc as <-.
  unfold copyTo.
  replace (size b =? size dest) with true by (symmetry; apply Z.eqb_eq; exact Heq).
  cbn [negb].
  assert (Hload : forall q n mq, mappings os !! q = Some mq ->
            0 < n -> Z.of_nat (List.length (m_bytes mq)) = n ->
            load q n os = (Ok (m_bytes mq), os)).
  { intros q n mq Hq Hn Hl. unfold load.
    replace (n <=? 0) with false by (symmetry; apply Z.leb_gt; lia).
    rewrite Hq.
    replace (n <=? Z.of_nat (List.length (m_bytes mq))) with true
      by (symmetry; apply Z.leb_le; lia).
    rewrite firstn_all2 by lia. reflexivity. }
  erewrite bind_Ok by (apply (Hload _ _ mb); assumption).
  rewrite (store_Ok _ _ _ mdest) by (assumption || lia).
  do 4 f_equal.
  unfold write_at. cbn [Z.to_nat take app Nat.add].
  rewrite drop_ge by lia. apply app_nil_r.
Qed.

(** C7, as the code has it.  Between two live buffers of equal size
    [copyTo] copies byte for byte: the destination region then holds the
    bytes of the source and no other mapping has changed.  When the sizes
    differ it returns normally, reporting no error, and has copied
    nothing, not even a truncated prefix. *)
Theorem copyTo_copies_or_skips b dest (os : OS) :
  live b os = true -> live dest os = true ->
  (size b = size dest ->
   exists os', copyTo b dest os = (Ok tt, os') /\
               region dest os' = region b os /\
               (forall p, p <> addr dest -> mappings os' !! p = mappings os !! p)) /\
  (size b <> size dest -> copyTo b dest os = (Ok tt, os)).
Proof.
  intros Hb Hd. split; [|apply copyTo_mismatch].
  intros Heq.
  destruct (live_inv b os Hb) as (mb & Hmb & _).
  destruct (live_inv dest os Hd) as (md & Hmd & _).
  eexists. split.
  - apply (copyTo_match b dest os (m_bytes mb) md); try assumption.
    unfold region. rewrite Hmb. reflexivity.
  - split.
    + unfold region. os_simpl. rewrite lookup_insert_eq, Hmb. reflexivity.
    + intros p Hp. os_simpl. apply lookup_insert_ne. congruence.
Qed.

Lemma copyTo_copies_or_skips_witness :
  (exists os', copyTo buffer1 buffer2 demo_os = (Ok tt, os') /\
               region buffer2 os' = region buffer1 demo_os /\
               (forall p, p <> addr buffer2 -> mappings os' !! p = mappings demo_os !! p)) /\
  copyTo buffer1 buffer3 demo_os = (Ok tt, demo_os).
Proof.
  split.
  - apply (copyTo_copies_or_skips buffer1 buffer2 demo_os); reflexivity.
  - apply (copyTo_copies_or_skips buffer1 buffer3 demo_os);
      [reflexivity | reflexivity | simpl; lia].
Defined.

(** C7 as stated fails: copying a 4-byte buffer to an 8-byte one does not
    fail, it returns as a successful copy does and leaves the process as
    it was. *)
Lemma copyTo_mismatch_is_silent :
  size buffer1 <> size buffer3 /\
  copyTo buffer1 buffer3 demo_os = (Ok tt, demo_os) /\
  fst (copyTo buffer1 buffer2 demo_os) = Ok tt.
Proof.
  split; [discriminate|]. split; reflexivity.
Qed.

(** C10.  When the sizes differ [copyTo] returns at once and the state of
    the process, hence every byte of both buffers, is unchanged. *)
Theorem copyTo_mismatch_changes_nothing b dest (os : OS) :
  size b <> size dest ->
  exists os', copyTo b dest os = (Ok tt, os') /\
              os' = os /\
              region dest os' = region dest os /\
              region b os' = region b os.
Proof.
  intros Hne. exists os. rewrite copyTo_mismatch by exact Hne.
  repeat split.
Qed.

Lemma copyTo_mismatch_changes_nothing_witness :
  exists os', copyTo buffer1 buffer3 demo_os = (Ok tt, os') /\
              os' = demo_os /\
              region buffer3 os' = region buffer3 demo_os /\
              region buffer1 os' = region buffer1 demo_os.
Proof.
  apply (copyTo_mismatch_changes_nothing buffer1 buffer3 demo_os).
  simpl. lia.
Defined.

(** *** Allocation *)

Lemma fresh_unmapped (os : OS) :
  mappings os !! fresh (dom (mappings os)) = None.
Proof. apply not_elem_of_dom. apply is_fresh. Qed.

Lemma Mmap_rejects length (os : OS) :
  length <= 0 \/ denied os (List.length (trace os)) = true ->
  Mmap length os = (Ok None, log_call (SysMmap length None) os).
Proof.
  intros H. unfold Mmap. destruct (length <=? 0) eqn:E; [reflexivity|].
  apply Z.leb_gt in E. destruct H as [H|H]; [lia|]. rewrite H. reflexivity.
Qed.

Lemma Mmap_grants length (os : OS) :
  0 < length -> denied os (List.length (trace os)) = false ->
  let p := fresh (dom (mappings os)) in
  Mmap length os =
  (Ok (Some p),
   log_call (SysMmap length (Some p))
     (set_mappings (insert p {| m_bytes := replicate (Z.to_nat length) x00;
                                m_locked := false |}) os)).
Proof.
  intros Hpos Hden. unfold Mmap.
  replace (length <=? 0) with false by (symmetry; apply Z.leb_gt; lia).
  rewrite Hden. reflexivity.
Qed.

(** C8.  [newLockedBuffer] returns [nil] when [size <= 0], when the
    mapping is refused and when the pinning is refused.  In the first two
    cases nothing was mapped; in the last the fresh mapping is unmapped
    again before [nil] is returned: the calls made are [Mmap], the failed
    [Mlock] and [Munmap], and the mappings of the process are those it
    had before the call. *)
Theorem newLockedBuffer_failures size (os : OS) :
  (size <= 0 ->
   exists os', newLockedBuffer size os = (Ok None, os') /\
               mappings os' = mappings os) /\
  (0 < size -> denied os (List.length (trace os)) = true ->
   exists os', newLockedBuffer size os = (Ok None, os') /\
               mappings os' = mappings os) /\
  (0 < size -> denied os (List.length (trace os)) = false ->
   denied os (S (List.length (trace os))) = true ->
   exists p os',
     newLockedBuffer size os = (Ok None, os') /\
     mappings os' = mappings os /\
     trace os' = SysMunmap p (Some (replicate (Z.to_nat size) x00))
                 :: SysMlock p false :: SysMmap size (Some p) :: trace os).
Proof.
  split; [|split].
  - intros Hsize. eexists. split.
    + unfold newLockedBuffer. erewrite bind_Ok by (apply Mmap_rejects; left; exact Hsize).
      reflexivity.
    + reflexivity.
  - intros Hpos Hden. eexists. split.
    + unfold newLockedBuffer. erewrite bind_Ok by (apply Mmap_rejects; right; exact Hden).
      reflexivity.
    + reflexivity.
  - intros Hpos Hmap Hlock.
    set (p := fresh (dom (mappings os))).
    exists p. eexists. split; [|split].
    + unfold newLockedBuffer.
      erewrite bind_Ok by (apply Mmap_grants; assumption).
      fold p. os_simpl.
      erewrite bind_Ok; cycle 1.
      { unfold Mlock. os_simpl. cbn [List.length].
        rewrite lookup_insert_eq, Hlock. reflexivity. }
      cbv beta iota.
      erewrite bind_Ok; cycle 1.
      { unfold Munmap. os_simpl. rewrite lookup_insert_eq. os_simpl.
        rewrite length_replicate, Z2Nat.id by lia.
        replace (0 <? size) with true by (symmetry; apply Z.ltb_lt; lia).
        rewrite Z.eqb_refl. reflexivity. }
      reflexivity.
    + os_simpl. apply delete_insert_id. apply fresh_unmapped.
    + reflexivity.
Qed.

Lemma newLockedBuffer_failures_witness :
  (exists os', newLockedBuffer 0 demo_os = (Ok None, os') /\
               mappings os' = mappings demo_os) /\
  (exists os', newLockedBuffer 16 starved_os = (Ok None, os') /\
               mappings os' = mappings starved_os) /\
  (exists p os',
     newLockedBuffer 16 stingy_os = (Ok None, os') /\
     mappings os' = mappings stingy_os /\
     trace os' = SysMunmap p (Some (replicate (Z.to_nat 16) x00))
                 :: SysMlock p false :: SysMmap 16 (Some p) :: trace stingy_os).
Proof.
  split; [|split].
  - apply (proj1 (newLockedBuffer_failures 0 demo_os)). lia.
  - apply (proj1 (proj2 (newLockedBuffer_failures 16 starved_os)));
      [lia | reflexivity].
  - apply (proj2 (proj2 (newLockedBuffer_failures 16 stingy_os)));
      [lia | reflexivity | reflexivity].
Defined.

(** When neither call is refused, the buffer returned is live, pinned
    and zero-filled, at an address that was free. *)
Lemma newLockedBuffer_Ok size (os : OS) :
  0 < size -> denied os (List.length (trace os)) = false ->
  denied os (S (List.length (trace os))) = false ->
  exists b os',
    newLockedBuffer size os = (Ok (Some b), os') /\
    LockedBuffer.size b = size /\ locked b = true /\ live b os' = true /\
    mappings os !! addr b = None /\
    mappings os' = <[addr b := {| m_bytes := replicate (Z.to_nat size) x00;
                                  m_locked := true |}]> (mappings os).
Proof.
  intros Hpos Hmap Hlock.
  set (p := fresh (dom (mappings os))).
  exists {| addr := p; LockedBuffer.size := size; locked := true |}. eexists.
  split; [|split; [|split; [|split; [|split]]]].
  - unfold newLockedBuffer.
    erewrite bind_Ok by (apply Mmap_grants; assumption).
    fold p. os_simpl.
    erewrite bind_Ok; cycle 1.
    { unfold Mlock. os_simpl. cbn [List.length].
        rewrite lookup_insert_eq, Hlock. reflexivity. }
    reflexivity.
  - reflexivity.
  - reflexivity.
  - unfold live. os_simpl. rewrite lookup_insert_eq. os_simpl.
    rewrite length_replicate, Z2Nat.id by lia.
    replace (0 <? size) with true by (symmetry; apply Z.ltb_lt; lia).
    rewrite Z.eqb_refl. reflexivity.
  - apply fresh_unmapped.
  - os_simpl. apply insert_insert_eq.
Qed.

(** *** Zeroing and release *)

(** [k] zero stores from offset [i] on inside a mapped region. *)
Lemma zero_stores_run p k i m (os : OS) :
  mappings os !! p = Some m ->
  0 <= i -> i + Z.of_nat k <= Z.of_nat (List.length (m_bytes m)) ->
  for_loop k i (fun i => store p i [x00]) os =
  (Ok tt, set_mappings
            (insert p (set_bytes (zero_from k (Z.to_nat i) (m_bytes m)) m)) os).
Proof.
  revert i m os. induction k as [|k IH]; intros i m os Hm Hi Hb.
  - cbn [for_loop zero_from]. unfold ret, set_mappings.
    replace (set_bytes (m_bytes m) m) with m by (destruct m; reflexivity).
    rewrite insert_id by exact Hm. rewrite OS_eta. reflexivity.
  - cbn [for_loop zero_from].
    erewrite bind_Ok by (apply (store_Ok p i [x00] m); [exact Hm | lia | cbn; lia]).
    erewrite IH; cycle 1.
    { os_simpl. apply lookup_insert_eq. }
    { lia. }
    { os_simpl. rewrite length_write_at by (cbn; lia). lia. }
    unfold set_mappings. os_simpl. rewrite insert_insert_eq.
    replace (Z.to_nat (i + 1)) with (S (Z.to_nat i)) by lia.
    reflexivity.
Qed.

(** [clear] on a live buffer: its region is all zero afterwards. *)
Lemma clear_run b m (os : OS) :
  mappings os !! addr b = Some m ->
  Z.of_nat (List.length (m_bytes m)) = size b ->
  clear b os =
  (Ok tt, set_mappings
            (insert (addr b) (set_bytes (replicate (Z.to_nat (size b)) x00) m)) os).
Proof.
  intros Hm Hlen. unfold clear.
  rewrite (zero_stores_run _ _ _ m) by (assumption || lia).
  rewrite zero_from_block by (cbn; lia).
  do 4 f_equal. unfold write_at. cbn [Z.to_nat take app Nat.add].
  rewrite length_replicate, drop_ge by lia. apply app_nil_r.
Qed.

(** [clear] on a buffer whose region is not mapped: the first store faults. *)
Lemma clear_unmapped b (os : OS) :
  mappings os !! addr b = None -> 0 < size b ->
  clear b os = (Fault, os).
Proof.
  intros Hm Hpos. unfold clear.
  destruct (Z.to_nat (size b)) as [|k] eqn:Ek; [lia|].
  cbn [for_loop]. unfold bind, store. rewrite Hm. reflexivity.
Qed.

(** C9, as the code has it.  On a live buffer [close] zeroes the whole
    region, then unmaps it: what [Munmap] releases is [size] zero bytes.
    It is not idempotent: a second [close] of the same buffer finds the
    region unmapped and faults in [clear], before it reaches [Munmap]; no
    mapping is released twice. *)
Theorem close_zeroes_then_unmaps b (os : OS) :
  live b os = true ->
  exists os1,
    close b os = (Ok tt, os1) /\
    mappings os1 = delete (addr b) (mappings os) /\
    trace os1 = SysMunmap (addr b) (Some (replicate (Z.to_nat (size b)) x00))
                :: (if locked b then [SysMunlock (addr b) true] else [])
                ++ trace os /\
    exists os2,
      close b os1 = (Fault, os2) /\ mappings os2 = mappings os1.
Proof.
  intros Hlive. destruct (live_inv b os Hlive) as (m & Hm & Hpos & Hlen).
  assert (Hguard : (0 <? size b) &&
                   (Z.of_nat (List.length (replicate (Z.to_nat (size b)) x00)) =? size b)
                   = true).
  { rewrite length_replicate, Z2Nat.id by lia.
    apply andb_true_intro. split; [apply Z.ltb_lt; lia | apply Z.eqb_refl]. }
  assert (Hfirst : exists os1,
    close b os = (Ok tt, os1) /\
    mappings os1 = delete (addr b) (mappings os) /\
    trace os1 = SysMunmap (addr b) (Some (replicate (Z.to_nat (size b)) x00))
                :: (if locked b then [SysMunlock (addr b) true] else [])
                ++ trace os).
  { unfold close. destruct (locked b).
    - erewrite bind_Ok; cycle 1.
      { erewrite bind_Ok by (unfold Munlock; rewrite Hm; reflexivity). reflexivity. }
      erewrite bind_Ok; cycle 1.
      { apply (clear_run b (set_locked false m));
          [os_simpl; apply lookup_insert_eq | exact Hlen]. }
      erewrite bind_Ok; cycle 1.
      { unfold Munmap. os_simpl. rewrite lookup_insert_eq. os_simpl.
        rewrite Hguard. reflexivity. }
      eexists. split; [reflexivity|]. os_simpl. split; [|reflexivity].
      rewrite !delete_insert_eq. reflexivity.
    - erewrite bind_Ok by reflexivity.
      erewrite bind_Ok by (apply (clear_run b m); assumption).
      erewrite bind_Ok; cycle 1.
      { unfold Munmap. os_simpl. rewrite lookup_insert_eq. os_simpl.
        rewrite Hguard. reflexivity. }
      eexists. split; [reflexivity|]. os_simpl. split; [|reflexivity].
      rewrite delete_insert_eq. reflexivity. }
  destruct Hfirst as (os1 & Hrun & Hmaps & Htrace).
  exists os1. repeat (split; [assumption|]).
  assert (Hgone : mappings os1 !! addr b = None)
    by (rewrite Hmaps; apply lookup_delete_eq).
  unfold close. destruct (locked b).
  - erewrite bind_Ok; cycle 1.
    { erewrite bind_Ok by (unfold Munlock; rewrite Hgone; reflexivity). reflexivity. }
    unfold bind at 1. rewrite clear_unmapped by (os_simpl; assumption).
    eexists. split; reflexivity.
  - erewrite bind_Ok by reflexivity.
    unfold bind at 1. rewrite clear_unmapped by assumption.
    eexists. split; reflexivity.
Qed.

Lemma close_zeroes_then_unmaps_witness :
  exists os1,
    close buffer1 demo_os = (Ok tt, os1) /\
    mappings os1 = delete (addr buffer1) (mappings demo_os) /\
    trace os1 = SysMunmap (addr buffer1) (Some (replicate (Z.to_nat (size buffer1)) x00))
                :: (if locked buffer1 then [SysMunlock (addr buffer1) true] else [])
                ++ trace demo_os /\
    exists os2,
      close buffer1 os1 = (Fault, os2) /\ mappings os2 = mappings os1.
Proof.
  apply (close_zeroes_then_unmaps buffer1 demo_os). reflexivity.
Defined.

(** C9 as stated fails: closing the 4-byte buffer a second time faults. *)
Lemma close_twice_faults :
  fst (close buffer1 demo_os) = Ok tt /\
  fst (bind (close buffer1) (fun _ => close buffer1) demo_os) = Fault.
Proof.
  split; vm_compute; reflexivity.
Qed.

(** ** Further properties of the locked buffer program *)

(** *** Allocating, then releasing *)

(** The run of [newLockedBuffer] when neither call is refused. *)
Lemma newLockedBuffer_grants size (os : OS) :
  0 < size -> denied os (List.length (trace os)) = false ->
  denied os (S (List.length (trace os))) = false ->
  let p := fresh (dom (mappings os)) in
  newLockedBuffer size os =
  (Ok (Some {| addr := p; LockedBuffer.size := size; locked := true |}),
   {| mappings := <[p := {| m_bytes := replicate (Z.to_nat size) x00;
                            m_locked := true |}]> (mappings os);
      trace := SysMlock p true :: SysMmap size (Some p) :: trace os;
      denied := denied os; entropy := entropy os; reads := reads os |}).
Proof.
  intros Hpos Hmap Hlock p. unfold newLockedBuffer.
  erewrite bind_Ok by (apply Mmap_grants; assumption).
  fold p. os_simpl.
  erewrite bind_Ok; cycle 1.
  { unfold Mlock. os_simpl. cbn [List.length].
    rewrite lookup_insert_eq, Hlock. reflexivity. }
  cbv beta iota. unfold ret, set_mappings, log_call. os_simpl.
  rewrite insert_insert_eq. reflexivity.
Qed.

(** The run of [close] on a live buffer. *)
Lemma close_live b m (os : OS) :
  mappings os !! addr b = Some m ->
  0 < size b -> Z.of_nat (List.length (m_bytes m)) = size b ->
  close b os =
  (Ok tt,
   {| mappings := delete (addr b) (mappings os);
      trace := SysMunmap (addr b) (Some (replicate (Z.to_nat (size b)) x00))
               :: (if locked b then [SysMunlock (addr b) true] else [])
               ++ trace os;
      denied := denied os; entropy := entropy os; reads := reads os |}).
Proof.
  intros Hm Hpos Hlen.
  assert (Hguard : (0 <? size b) &&
                   (Z.of_nat (List.length (replicate (Z.to_nat (size b)) x00)) =? size b)
                   = true).
  { rewrite length_replicate, Z2Nat.id by lia.
    apply andb_true_intro. split; [apply Z.ltb_lt; lia | apply Z.eqb_refl]. }
  unfold close. destruct (locked b).
  - erewrite bind_Ok; cycle 1.
    { erewrite bind_Ok by (unfold Munlock; rewrite Hm; reflexivity). reflexivity. }
    erewrite bind_Ok; cycle 1.
    { apply (clear_run b (set_locked false m));
        [os_simpl; apply lookup_insert_eq | exact Hlen]. }
    erewrite bind_Ok; cycle 1.
    { unfold Munmap. os_simpl. rewrite lookup_insert_eq. os_simpl.
      rewrite Hguard. reflexivity. }
    unfold ret, set_mappings, log_call. os_simpl.
    rewrite !delete_insert_eq. reflexivity.
  - erewrite bind_Ok by reflexivity.
    erewrite bind_Ok by (apply (clear_run b m); assumption).
    erewrite bind_Ok; cycle 1.
    { unfold Munmap. os_simpl. rewrite lookup_insert_eq. os_simpl.
      rewrite Hguard. reflexivity. }
    unfold ret, set_mappings, log_call. os_simpl.
    rewrite delete_insert_eq. reflexivity.
Qed.

(** X15.  The life of a buffer.  When the kernel refuses neither call,
    [newLockedBuffer] returns a buffer of the size asked for at an address
    that was free; its region is pinned and all zero.  Closing it then
    leaves the mappings of the process exactly as they were before the
    allocation, after the calls [Mmap], [Mlock], [Munlock] and [Munmap]. *)
Theorem allocate_then_close size (os : OS) :
  0 < size -> denied os (List.length (trace os)) = false ->
  denied os (S (List.length (trace os))) = false ->
  exists b os1 os2,
    newLockedBuffer size os = (Ok (Some b), os1) /\
    LockedBuffer.size b = size /\ locked b = true /\
    mappings os !! addr b = None /\
    mappings os1 !! addr b =
      Some {| m_bytes := replicate (Z.to_nat size) x00; m_locked := true |} /\
    (forall p, p <> addr b -> mappings os1 !! p = mappings os !! p) /\
    close b os1 = (Ok tt, os2) /\
    mappings os2 = mappings os /\
    trace os2 = SysMunmap (addr b) (Some (replicate (Z.to_nat size) x00))
                :: SysMunlock (addr b) true :: SysMlock (addr b) true
                :: SysMmap size (Some (addr b)) :: trace os.
Proof.
  intros Hpos Hmap Hlock.
  pose proof (newLockedBuffer_grants size os Hpos Hmap Hlock) as Hnew. cbv zeta in Hnew.
  set (p := fresh (dom (mappings os))) in *.
  eexists _, _, _. split; [exact Hnew|]. os_simpl.
  split; [reflexivity|]. split; [reflexivity|].
  split; [apply fresh_unmapped|].
  split; [apply lookup_insert_eq|].
  split; [intros q Hq; apply lookup_insert_ne; congruence|].
  split.
  - apply (close_live _ {| m_bytes := replicate (Z.to_nat size) x00; m_locked := true |});
      os_simpl; [apply lookup_insert_eq | exact Hpos | rewrite length_replicate; lia].
  - os_simpl. split; [|reflexivity].
    apply delete_insert_id. apply fresh_unmapped.
Qed.

Lemma allocate_then_close_witness :
  exists b os1 os2,
    newLockedBuffer 16 demo_os = (Ok (Some b), os1) /\
    LockedBuffer.size b = 16 /\ locked b = true /\
    mappings demo_os !! addr b = None /\
    mappings os1 !! addr b =
      Some {| m_bytes := replicate (Z.to_nat 16) x00; m_locked := true |} /\
    (forall p, p <> addr b -> mappings os1 !! p = mappings demo_os !! p) /\
    close b os1 = (Ok tt, os2) /\
    mappings os2 = mappings demo_os /\
    trace os2 = SysMunmap (addr b) (Some (replicate (Z.to_nat 16) x00))
                :: SysMunlock (addr b) true :: SysMlock (addr b) true
                :: SysMmap 16 (Some (addr b)) :: trace demo_os.
Proof.
  apply (allocate_then_close 16 demo_os); [lia | reflexivity | reflexivity].
Defined.

(** *** Zeroing *)

(** X16.  [clear] on a live buffer returns with the whole region zero; the
    region stays mapped and keeps its pin, no other mapping changes, no
    system call is made, and clearing again changes nothing. *)
Theorem clear_zeroes_in_place b (os : OS) :
  live b os = true ->
  exists os' m,
    mappings os !! addr b = Some m /\
    clear b os = (Ok tt, os') /\
    mappings os' !! addr b =
      Some {| m_bytes := replicate (Z.to_nat (size b)) x00; m_locked := m_locked m |} /\
    (forall p, p <> addr b -> mappings os' !! p = mappings os !! p) /\
    trace os' = trace os /\
    live b os' = true /\
    clear b os' = (Ok tt, os').
Proof.
  intros Hlive. destruct (live_inv b os Hlive) as (m & Hm & Hpos & Hlen).
  eexists _, m. split; [exact Hm|].
  split; [apply (clear_run b m); assumption|]. os_simpl.
  assert (Hm' : <[addr b := set_bytes (replicate (Z.to_nat (size b)) x00) m]> (mappings os)
                !! addr b =
                Some {| m_bytes := replicate (Z.to_nat (size b)) x00;
                        m_locked := m_locked m |}) by apply lookup_insert_eq.
  split; [exact Hm'|].
  split; [intros p Hp; apply lookup_insert_ne; congruence|].
  split; [reflexivity|].
  split.
  - unfold live. os_simpl. rewrite Hm'. os_simpl.
    rewrite length_replicate, Z2Nat.id by lia.
    replace (0 <? size b) with true by (symmetry; apply Z.ltb_lt; lia).
    rewrite Z.eqb_refl. reflexivity.
  - erewrite clear_run;
      [| os_simpl; exact Hm' | os_simpl; rewrite length_replicate; lia].
    unfold set_mappings, set_bytes. os_simpl. rewrite insert_insert_eq. reflexivity.
Qed.

Lemma clear_zeroes_in_place_witness :
  exists os' m,
    mappings demo_os !! addr buffer1 = Some m /\
    clear buffer1 demo_os = (Ok tt, os') /\
    mappings os' !! addr buffer1 =
      Some {| m_bytes := replicate (Z.to_nat (size buffer1)) x00;
              m_locked := m_locked m |} /\
    (forall p, p <> addr buffer1 -> mappings os' !! p = mappings demo_os !! p) /\
    trace os' = trace demo_os /\
    live buffer1 os' = true /\
    clear buffer1 os' = (Ok tt, os').
Proof.
  apply (clear_zeroes_in_place buffer1 demo_os). reflexivity.
Defined.

(** *** Random fill *)

(** The run of [writeRandom] on a mapped region of the size of the buffer. *)
Lemma writeRandom_run b m (os : OS) :
  mappings os !! addr b = Some m ->
  Z.of_nat (List.length (m_bytes m)) = size b ->
  let n := Z.to_nat (size b) in
  let got := take n (entropy os (List.length (reads os)) n) in
  writeRandom b os =
  (Ok (List.length got <? n)%nat,
   {| mappings := <[addr b := set_bytes (write_at 0 got (m_bytes m)) m]> (mappings os);
      trace := trace os; denied := denied os; entropy := entropy os;
      reads := n :: reads os |}).
Proof.
  intros Hm Hlen n got. unfold writeRandom.
  erewrite bind_Ok by reflexivity.
  erewrite bind_Ok by reflexivity.
  fold n. fold got.
  erewrite bind_Ok; cycle 1.
  { apply (store_Ok _ _ _ m); os_simpl; [exact Hm | lia |].
    subst got. rewrite length_take. lia. }
  reflexivity.
Qed.



(** X18.  Filling a buffer and copying it: after [writeRandom] on a live
    buffer with a random source that delivers, [copyTo] into a live
    buffer of the same size leaves both regions holding the bytes the
    source delivered. *)
Theorem fill_then_copy b dest (os : OS) :
  live b os = true -> live dest os = true -> size b = size dest ->
  (Z.to_nat (size b) <=
   List.length (entropy os (List.length (reads os)) (Z.to_nat (size b))))%nat ->
  let got := take (Z.to_nat (size b))
               (entropy os (List.length (reads os)) (Z.to_nat (size b))) in
  exists os1 os2,
    writeRandom b os = (Ok false, os1) /\
    copyTo b dest os1 = (Ok tt, os2) /\
    region b os2 = Some got /\
    region dest os2 = Some got.
Proof.
  intros Hb Hd Heq Hfull got.
  destruct (live_inv b os Hb) as (mb & Hmb & Hpos & Hlen).
  destruct (live_inv dest os Hd) as (md & Hmd & Hposd & Hlend).
  assert (Hn : List.length got = Z.to_nat (size b))
    by (subst got; rewrite length_take; lia).
  pose proof (writeRandom_run b mb os Hmb Hlen) as Hrun. cbv zeta in Hrun.
  fold got in Hrun. rewrite Hn, Nat.ltb_irrefl in Hrun.
  assert (Hwhole : write_at 0 got (m_bytes mb) = got)
    by (apply write_at_whole; lia).
  rewrite Hwhole in Hrun.
  match type of Hrun with _ = (_, ?s) => set (os1 := s) in * end.
  assert (Hmb1 : mappings os1 !! addr b = Some (set_bytes got mb))
    by apply lookup_insert_eq.
  assert (Hb1 : live b os1 = true).
  { unfold live. rewrite Hmb1. os_simpl.
    replace (0 <? size b) with true by (symmetry; apply Z.ltb_lt; lia).
    replace (Z.of_nat (List.length got) =? size b) with true
      by (symmetry; apply Z.eqb_eq; lia).
    reflexivity. }
  destruct (decide (addr dest = addr b)) as [Hsame|Hdiff].
  - assert (Hmd1 : mappings os1 !! addr dest = Some (set_bytes got mb))
      by (rewrite Hsame; exact Hmb1).
    assert (Hd1 : live dest os1 = true)
      by (unfold live; rewrite Hmd1, <- Heq; unfold live in Hb1; rewrite Hmb1 in Hb1;
          exact Hb1).
    exists os1. eexists. split; [exact Hrun|].
    split.
    + apply (copyTo_match b dest os1 got (set_bytes got mb)); try assumption.
      unfold region. rewrite Hmb1. reflexivity.
    + unfold region. os_simpl. rewrite Hsame, !lookup_insert_eq. split; reflexivity.
  - assert (Hmd1 : mappings os1 !! addr dest = Some md)
      by (subst os1; os_simpl; rewrite lookup_insert_ne by congruence; exact Hmd).
    assert (Hd1 : live dest os1 = true).
    { unfold live. rewrite Hmd1.
      replace (0 <? size dest) with true by (symmetry; apply Z.ltb_lt; lia).
      replace (Z.of_nat (List.length (m_bytes md)) =? size dest) with true
        by (symmetry; apply Z.eqb_eq; lia).
      reflexivity. }
    exists os1. eexists. split; [exact Hrun|].
    split.
    + apply (copyTo_match b dest os1 got md); try assumption.
      unfold region. rewrite Hmb1. reflexivity.
    + unfold region. os_simpl.
      rewrite lookup_insert_ne by congruence.
      rewrite lookup_insert_eq, Hmb1. split; reflexivity.
Qed.

Lemma fill_then_copy_witness :
  exists os1 os2,
    writeRandom buffer1 demo_os = (Ok false, os1) /\
    copyTo buffer1 buffer2 os1 = (Ok tt, os2) /\
    region buffer1 os2 = Some (replicate 4 xa5) /\
    region buffer2 os2 = Some (replicate 4 xa5).
Proof.
  apply (fill_then_copy buffer1 buffer2 demo_os);
    [reflexivity | reflexivity | reflexivity | simpl; lia].
Defined.

(** *** Showing a buffer *)

Lemma Process_eta (pr : Process) :
  {| kernel := kernel pr; console := console pr |} = pr.
Proof. destruct pr; reflexivity. Qed.

(** The loop of [display] over [k] mapped bytes from offset [i] on. *)
Lemma display_loop_run p m k i (pr : Process) :
  mappings (kernel pr) !! p = Some m ->
  0 <= i -> i + Z.of_nat k <= Z.of_nat (List.length (m_bytes m)) ->
  for_loop k i (fun i => do x <- sys (load_byte p i); print (Hex x)) pr =
  (Ok tt, {| kernel := kernel pr;
             console := console pr
                        ++ map Hex (take k (drop (Z.to_nat i) (m_bytes m))) |}).
Proof.
  revert i pr. induction k as [|k IH]; intros i pr Hm Hi Hb.
  - cbn [for_loop take map]. rewrite app_nil_r, Process_eta. reflexivity.
  - cbn [for_loop].
    destruct (lookup_lt_is_Some_2 (m_bytes m) (Z.to_nat i) ltac:(lia)) as [x Hx].
    erewrite bind_Ok; cycle 1.
    { erewrite bind_Ok; cycle 1.
      { unfold sys, load_byte. rewrite Hm.
        replace (0 <=? i) with true by (symmetry; apply Z.leb_le; lia).
        rewrite Hx. reflexivity. }
      reflexivity. }
    rewrite IH by (cbn [kernel]; first [exact Hm | lia]).
    cbn [kernel console]. f_equal. f_equal.
    rewrite (drop_S _ _ _ Hx). cbn [take map].
    replace (Z.to_nat (i + 1)) with (S (Z.to_nat i)) by lia.
    rewrite <- app_assoc. reflexivity.
Qed.

(** The run of [display] on a live buffer. *)
Lemma display_live b label (pr : Process) :
  live b (kernel pr) = true ->
  exists bytes,
    region b (kernel pr) = Some bytes /\
    display b label pr =
    (Ok tt, {| kernel := kernel pr;
               console := console pr
                          ++ Header label (addr b) :: map Hex bytes ++ [Text ""] |}).
Proof.
  intros Hlive. destruct (live_inv b (kernel pr) Hlive) as (m & Hm & Hpos & Hlen).
  exists (m_bytes m). split; [unfold region; rewrite Hm; reflexivity|].
  unfold display.
  erewrite bind_Ok by reflexivity.
  erewrite bind_Ok by (apply (display_loop_run _ m); cbn [kernel]; first [exact Hm | lia]).
  unfold print. cbn [kernel console]. f_equal. f_equal.
  change (Z.to_nat 0) with 0%nat. rewrite drop_0, take_ge by lia.
  rewrite <- !app_assoc. reflexivity.
Qed.

(** X19.  [display] of a live buffer prints the label and the address,
    then every byte of the region in order, then ends the line; it
    changes nothing in the memory of the process. *)
Theorem display_shows_region b label (pr : Process) :
  live b (kernel pr) = true ->
  exists bytes,
    region b (kernel pr) = Some bytes /\
    display b label pr =
    (Ok tt, {| kernel := kernel pr;
               console := console pr
                          ++ Header label (addr b) :: map Hex bytes ++ [Text ""] |}).
Proof.
  apply display_live.
Qed.

Lemma display_shows_region_witness :
  exists bytes,
    region buffer1 demo_os = Some bytes /\
    display buffer1 "Buffer 1" {| kernel := demo_os; console := [] |} =
    (Ok tt, {| kernel := demo_os;
               console := [] ++ Header "Buffer 1" (addr buffer1)
                          :: map Hex bytes ++ [Text ""] |}).
Proof.
  apply (display_shows_region buffer1 "Buffer 1" {| kernel := demo_os; console := [] |}).
  reflexivity.
Defined.

(** *** After the release *)

(** X20.  Once a live buffer is closed, every access through it faults:
    zeroing it, copying from it, copying into it from a live buffer of
    the same size, and showing it, which stops after the label and the
    address.  None of them changes the memory of the process. *)
Theorem access_after_close_faults b (os : OS) :
  live b os = true ->
  exists os1,
    close b os = (Ok tt, os1) /\
    clear b os1 = (Fault, os1) /\
    (forall dest, size dest = size b -> copyTo b dest os1 = (Fault, os1)) /\
    (forall src, live src os1 = true -> size src = size b ->
                 copyTo src b os1 = (Fault, os1)) /\
    (forall label out,
       display b label {| kernel := os1; console := out |} =
       (Fault, {| kernel := os1; console := out ++ [Header label (addr b)] |})).
Proof.
  intros Hlive. destruct (live_inv b os Hlive) as (m & Hm & Hpos & Hlen).
  eexists. split; [apply (close_live b m); assumption|].
  match goal with |- clear b ?s = _ /\ _ => set (os1 := s) end.
  assert (Hgone : mappings os1 !! addr b = None) by apply lookup_delete_eq.
  split; [apply clear_unmapped; assumption|].
  split; [|split].
  - intros dest Hsize. unfold copyTo.
    replace (size b =? size dest) with true by (symmetry; apply Z.eqb_eq; lia).
    cbn [negb]. unfold bind, load.
    replace (size b <=? 0) with false by (symmetry; apply Z.leb_gt; lia).
    rewrite Hgone. reflexivity.
  - intros src Hsrc Hsize.
    destruct (live_inv src os1 Hsrc) as (ms & Hms & Hposs & Hlens).
    unfold copyTo.
    replace (size src =? size b) with true by (symmetry; apply Z.eqb_eq; lia).
    cbn [negb]. unfold bind, load.
    replace (size src <=? 0) with false by (symmetry; apply Z.leb_gt; lia).
    rewrite Hms.
    replace (size src <=? Z.of_nat (List.length (m_bytes ms))) with true
      by (symmetry; apply Z.leb_le; lia).
    unfold store. rewrite Hgone.
    destruct (take (Z.to_nat (size src)) (m_bytes ms)) as [|x bs] eqn:Etake;
      [|reflexivity].
    apply (f_equal (@List.length _)) in Etake.
    rewrite length_take in Etake. cbn [List.length] in Etake. lia.
  - intros label out. unfold display.
    erewrite bind_Ok by reflexivity.
    destruct (Z.to_nat (size b)) as [|k] eqn:Ek; [lia|].
    cbn [for_loop]. unfold bind at 1. unfold bind at 1. unfold bind at 1.
    unfold sys, load_byte. cbn [kernel console]. rewrite Hgone. reflexivity.
Qed.

Lemma access_after_close_faults_witness :
  exists os1,
    close buffer1 demo_os = (Ok tt, os1) /\
    clear buffer1 os1 = (Fault, os1) /\
    (forall dest, size dest = size buffer1 -> copyTo buffer1 dest os1 = (Fault, os1)) /\
    (forall src, live src os1 = true -> size src = size buffer1 ->
                 copyTo src buffer1 os1 = (Fault, os1)) /\
    (forall label out,
       display buffer1 label {| kernel := os1; console := out |} =
       (Fault, {| kernel := os1; console := out ++ [Header label (addr buffer1)] |})).
Proof.
  apply (access_after_close_faults buffer1 demo_os). reflexivity.
Defined.

(** *** The demonstration program *)

Lemma sys_Ok {A} (c : M OS A) (pr : Process) a os' :
  c (kernel pr) = (Ok a, os') ->
  sys c pr = (Ok a, {| kernel := os'; console := console pr |}).
Proof. intros H. unfold sys. rewrite H. reflexivity. Qed.

Lemma deferred_Ok {S A} (d : M S unit) (body : M S A) s a s' :
  body s = (Ok a, s') -> deferred d body s = bind d (fun _ => ret a) s'.
Proof. intros H. unfold deferred. rewrite H. reflexivity. Qed.


Lemma both_mapped_live p1 p2 base T (os : OS) b :
  both_mapped p1 p2 base T os ->
  addr b = p1 \/ addr b = p2 -> size b = 16 -> live b os = true.
Proof.
  intros ((m1 & Hm1 & Hl1) & (m2 & Hm2 & Hl2) & _ & _) Hb Hsize.
  unfold live. destruct Hb as [-> | ->]; rewrite ?Hm1, ?Hm2, Hsize, ?Hl1, ?Hl2;
    reflexivity.
Qed.

(** Rewriting the bytes of one of the two regions, length kept. *)
Lemma both_mapped_rewrite p1 p2 base T (os : OS) q m bs :
  both_mapped p1 p2 base T os ->
  q = p1 \/ q = p2 -> mappings os !! q = Some m ->
  List.length bs = 16%nat ->
  forall rd,
  both_mapped p1 p2 base T
    {| mappings := <[q := set_bytes bs m]> (mappings os);
       trace := trace os; denied := denied os; entropy := entropy os; reads := rd |}.
Proof.
  intros ((m1 & Hm1 & Hl1) & (m2 & Hm2 & Hl2) & Hbase & HT) Hq Hm Hbs rd.
  unfold both_mapped. os_simpl.
  split; [|split; [|split; [|exact HT]]].
  - destruct (decide (q = p1)) as [->|Hne].
    + rewrite lookup_insert_eq. eexists. split; [reflexivity | exact Hbs].
    + rewrite lookup_insert_ne by exact Hne. eauto.
  - destruct (decide (q = p2)) as [->|Hne].
    + rewrite lookup_insert_eq. eexists. split; [reflexivity | exact Hbs].
    + rewrite lookup_insert_ne by exact Hne. eauto.
  - intros p Hp1 Hp2. rewrite lookup_insert_ne by (destruct Hq; congruence).
    apply Hbase; assumption.
Qed.

Lemma writeRandom_keeps p1 p2 base T (os : OS) b :
  both_mapped p1 p2 base T os ->
  addr b = p1 \/ addr b = p2 -> size b = 16 ->
  exists os',
    writeRandom b os =
      (Ok (List.length (take 16 (entropy os (List.length (reads os)) 16)) <? 16)%nat, os') /\
    both_mapped p1 p2 base T os' /\
    denied os' = denied os /\ entropy os' = entropy os.
Proof.
  intros Hinv Hb Hsize.
  destruct (live_inv b os (both_mapped_live _ _ _ _ _ _ Hinv Hb Hsize))
    as (m & Hm & Hpos & Hlen).
  pose proof (writeRandom_run b m os Hm Hlen) as Hrun. cbv zeta in Hrun.
  rewrite Hsize in Hrun. change (Z.to_nat 16) with 16%nat in Hrun.
  eexists. split; [exact Hrun|]. split; [|split; reflexivity].
  apply both_mapped_rewrite; try assumption.
  rewrite length_write_at; rewrite ?length_take; lia.
Qed.

Lemma copyTo_keeps p1 p2 base T (os : OS) b dest :
  both_mapped p1 p2 base T os ->
  addr b = p1 \/ addr b = p2 -> addr dest = p1 \/ addr dest = p2 ->
  size b = 16 -> size dest = 16 ->
  exists os',
    copyTo b dest os = (Ok tt, os') /\
    both_mapped p1 p2 base T os' /\
    denied os' = denied os /\ entropy os' = entropy os.
Proof.
  intros Hinv Hb Hd Hsb Hsd.
  pose proof (both_mapped_live _ _ _ _ _ _ Hinv Hb Hsb) as Hlb.
  pose proof (both_mapped_live _ _ _ _ _ _ Hinv Hd Hsd) as Hld.
  destruct (live_inv b os Hlb) as (mb & Hmb & _ & Hlenb).
  destruct (live_inv dest os Hld) as (md & Hmd & _ & _).
  eexists. split.
  - apply (copyTo_match b dest os (m_bytes mb) md); try assumption; [lia|].
    unfold region. rewrite Hmb. reflexivity.
  - split; [|split; reflexivity].
    unfold set_mappings.
    rewrite <- (OS_eta os) at 1. cbn [mappings trace denied entropy reads].
    apply (both_mapped_rewrite p1 p2 base T os (addr dest) md (m_bytes mb) Hinv Hd Hmd).
    lia.
Qed.

Lemma display_keeps p1 p2 base T (pr : Process) b label :
  both_mapped p1 p2 base T (kernel pr) ->
  addr b = p1 \/ addr b = p2 -> size b = 16 ->
  exists pr', display b label pr = (Ok tt, pr') /\ kernel pr' = kernel pr.
Proof.
  intros Hinv Hb Hsize.
  destruct (display_live b label pr (both_mapped_live _ _ _ _ _ _ Hinv Hb Hsize))
    as (bytes & _ & Hrun).
  eexists. split; [exact Hrun | reflexivity].
Qed.

(** The steps of [main] between the allocations and the deferred
    releases, when the first random fill succeeds. *)
Lemma demo_steps_run p1 p2 base T (pr : Process) buf1 buf2 :
  both_mapped p1 p2 base T (kernel pr) ->
  addr buf1 = p1 -> addr buf2 = p2 -> size buf1 = 16 -> size buf2 = 16 ->
  (16 <= List.length (entropy (kernel pr) (List.length (reads (kernel pr))) 16))%nat ->
  exists pr',
    (run print (Text "\n1. Initial random data in Buffer 1:");
     do err <- sys (writeRandom buf1);
     run (if err : bool then log_Fatal else ret tt);
     run display buf1 "Buffer 1";
     run display buf2 "Buffer 2";
     run print (Text "\n2. After copying to Buffer 2:");
     run sys (copyTo buf1 buf2);
     run display buf1 "Buffer 1";
     run display buf2 "Buffer 2";
     run print (Text "\n3. After random fill both:");
     do _ <- sys (writeRandom buf1);
     do _ <- sys (writeRandom buf2);
     run display buf1 "Buffer 1";
     run display buf2 "Buffer 2";
     print (Text "\n=== Complete ==="))%go pr = (Ok tt, pr') /\
    both_mapped p1 p2 base T (kernel pr').
Proof.
  intros Hinv H1 H2 Hs1 Hs2 Hfill.
  erewrite bind_Ok by reflexivity.
  destruct (writeRandom_keeps _ _ _ _ _ buf1 Hinv (or_introl H1) Hs1)
    as (os1 & Hrun & Hinv1 & _ & _).
  rewrite length_take, Nat.min_l, Nat.ltb_irrefl in Hrun by exact Hfill.
  erewrite bind_Ok by (apply sys_Ok; cbn [kernel]; exact Hrun).
  erewrite bind_Ok by reflexivity.
  clear Hrun Hinv Hfill.
  match goal with |- context [bind (display buf1 ?l) _ ?s] =>
    destruct (display_keeps p1 p2 base T s buf1 l Hinv1 (or_introl H1) Hs1)
      as (pr2 & Hrun & Hk2) end.
  erewrite bind_Ok by exact Hrun. clear Hrun. cbn [kernel] in Hk2.
  rewrite <- Hk2 in Hinv1.
  match goal with |- context [bind (display buf2 ?l) _ ?s] =>
    destruct (display_keeps p1 p2 base T s buf2 l Hinv1 (or_intror H2) Hs2)
      as (pr3 & Hrun & Hk3) end.
  erewrite bind_Ok by exact Hrun. clear Hrun. rewrite <- Hk3 in Hinv1.
  erewrite bind_Ok by reflexivity.
  destruct (copyTo_keeps _ _ _ _ _ buf1 buf2 Hinv1 (or_introl H1) (or_intror H2) Hs1 Hs2)
    as (os4 & Hrun & Hinv4 & _ & _).
  erewrite bind_Ok by (apply sys_Ok; cbn [kernel]; exact Hrun). clear Hrun Hinv1.
  match goal with |- context [bind (display buf1 ?l) _ ?s] =>
    destruct (display_keeps p1 p2 base T s buf1 l Hinv4 (or_introl H1) Hs1)
      as (pr5 & Hrun & Hk5) end.
  erewrite bind_Ok by exact Hrun. clear Hrun. cbn [kernel] in Hk5.
  rewrite <- Hk5 in Hinv4.
  match goal with |- context [bind (display buf2 ?l) _ ?s] =>
    destruct (display_keeps p1 p2 base T s buf2 l Hinv4 (or_intror H2) Hs2)
      as (pr6 & Hrun & Hk6) end.
  erewrite bind_Ok by exact Hrun. clear Hrun. rewrite <- Hk6 in Hinv4.
  erewrite bind_Ok by reflexivity.
  destruct (writeRandom_keeps _ _ _ _ _ buf1 Hinv4 (or_introl H1) Hs1)
    as (os7 & Hrun & Hinv7 & _ & _).
  erewrite bind_Ok by (apply sys_Ok; cbn [kernel]; exact Hrun). clear Hrun Hinv4.
  destruct (writeRandom_keeps _ _ _ _ _ buf2 Hinv7 (or_intror H2) Hs2)
    as (os8 & Hrun & Hinv8 & _ & _).
  erewrite bind_Ok by (apply sys_Ok; cbn [kernel]; exact Hrun). clear Hrun Hinv7.
  match goal with |- context [bind (display buf1 ?l) _ ?s] =>
    destruct (display_keeps p1 p2 base T s buf1 l Hinv8 (or_introl H1) Hs1)
      as (pr9 & Hrun & Hk9) end.
  erewrite bind_Ok by exact Hrun. clear Hrun. cbn [kernel] in Hk9.
  rewrite <- Hk9 in Hinv8.
  match goal with |- context [bind (display buf2 ?l) _ ?s] =>
    destruct (display_keeps p1 p2 base T s buf2 l Hinv8 (or_intror H2) Hs2)
      as (pr10 & Hrun & Hk10) end.
  erewrite bind_Ok by exact Hrun. clear Hrun. rewrite <- Hk10 in Hinv8.
  eexists. split; [reflexivity | exact Hinv8].
Qed.



(** The state of [main] once both buffers are allocated. *)
Lemma two_allocations (os : OS) :
  (forall k, denied os k = false) ->
  let p1 := fresh (dom (mappings os)) in
  let zeros := {| m_bytes := replicate (Z.to_nat 16) x00; m_locked := true |} in
  let os1 := {| mappings := <[p1 := zeros]> (mappings os);
                trace := SysMlock p1 true :: SysMmap 16 (Some p1) :: trace os;
                denied := denied os; entropy := entropy os; reads := reads os |} in
  let p2 := fresh (dom (mappings os1)) in
  let os2 := {| mappings := <[p2 := zeros]> (mappings os1);
                trace := SysMlock p2 true :: SysMmap 16 (Some p2) :: trace os1;
                denied := denied os; entropy := entropy os; reads := reads os |} in
  newLockedBuffer 16 os =
    (Ok (Some {| addr := p1; size := 16; locked := true |}), os1) /\
  newLockedBuffer 16 os1 =
    (Ok (Some {| addr := p2; size := 16; locked := true |}), os2) /\
  p1 <> p2 /\ mappings os !! p1 = None /\ mappings os !! p2 = None /\
  both_mapped p1 p2 (mappings os) (trace os2) os2.
Proof.
  intros Hgrant p1 zeros os1 p2 os2.
  assert (Hp1 : mappings os !! p1 = None) by apply fresh_unmapped.
  assert (Hp2 : mappings os1 !! p2 = None) by apply fresh_unmapped.
  assert (Hin : forall q, mappings os1 !! q =
                          if decide (p1 = q) then Some zeros else mappings os !! q)
    by (intros q; apply lookup_insert).
  assert (Hne : p1 <> p2).
  { intros Heq. rewrite Hin, decide_True in Hp2 by exact Heq. discriminate. }
  assert (Hp2' : mappings os !! p2 = None).
  { rewrite Hin, decide_False in Hp2 by exact Hne. exact Hp2. }
  split; [apply (newLockedBuffer_grants 16 os); [lia | apply Hgrant | apply Hgrant]|].
  split; [apply (newLockedBuffer_grants 16 os1); [lia | apply Hgrant | apply Hgrant]|].
  split; [exact Hne|]. split; [exact Hp1|]. split; [exact Hp2'|].
  unfold both_mapped. subst os2 os1. os_simpl.
  split; [|split; [|split; [|reflexivity]]].
  - exists zeros. rewrite lookup_insert_ne by congruence.
    rewrite lookup_insert_eq. split; [reflexivity | apply length_replicate].
  - exists zeros. rewrite lookup_insert_eq. split; [reflexivity | apply length_replicate].
  - intros p Hq1 Hq2. rewrite !lookup_insert_ne by congruence. reflexivity.
Qed.

(** X21.  The program on a kernel that refuses nothing and with a first
    random fill that succeeds: [main] returns; the deferred releases run
    last in, first out, each unmapping sixteen zero bytes; and the
    mappings of the process end exactly as they began. *)
Theorem main_releases_both_buffers (pr : Process) :
  (forall k, denied (kernel pr) k = false) ->
  (16 <= List.length (entropy (kernel pr) (List.length (reads (kernel pr))) 16))%nat ->
  exists pr' p1 p2,
    main pr = (Ok tt, pr') /\
    p1 <> p2 /\
    mappings (kernel pr') = mappings (kernel pr) /\
    trace (kernel pr') =
      SysMunmap p1 (Some (replicate 16 x00)) :: SysMunlock p1 true
      :: SysMunmap p2 (Some (replicate 16 x00)) :: SysMunlock p2 true
      :: SysMlock p2 true :: SysMmap 16 (Some p2)
      :: SysMlock p1 true :: SysMmap 16 (Some p1) :: trace (kernel pr).
Proof.
  intros Hgrant Hfill.
  pose proof (two_allocations (kernel pr) Hgrant) as Halloc. cbv zeta in Halloc.
  set (p1 := fresh (dom (mappings (kernel pr)))) in *.
  match type of Halloc with
  | newLockedBuffer 16 _ = (_, ?s) /\ _ => set (os1 := s) in *
  end.
  set (p2 := fresh (dom (mappings os1))) in *.
  match type of Halloc with
  | _ /\ newLockedBuffer 16 _ = (_, ?s) /\ _ => set (os2 := s) in *
  end.
  destruct Halloc as (Hnew1 & Hnew2 & Hne & Hp1 & Hp2 & Hinv).
  unfold main.
  erewrite bind_Ok by reflexivity.
  erewrite bind_Ok by (apply sys_Ok; cbn [kernel]; exact Hnew1).
  cbv beta iota.
  set (buf1 := {| addr := p1; size := 16; locked := true |}).
  set (buf2 := {| addr := p2; size := 16; locked := true |}).
  assert (Hbody :
    exists pr2,
      deferred (sys (close buf2))
        (run print (Text "\n1. Initial random data in Buffer 1:");
         do err <- sys (writeRandom buf1);
         run (if err : bool then log_Fatal else ret tt);
         run display buf1 "Buffer 1";
         run display buf2 "Buffer 2";
         run print (Text "\n2. After copying to Buffer 2:");
         run sys (copyTo buf1 buf2);
         run display buf1 "Buffer 1";
         run display buf2 "Buffer 2";
         run print (Text "\n3. After random fill both:");
         do _ <- sys (writeRandom buf1);
         do _ <- sys (writeRandom buf2);
         run display buf1 "Buffer 1";
         run display buf2 "Buffer 2";
         print (Text "\n=== Complete ==="))%go
        {| kernel := os2;
           console := console pr
             ++ [Text "=== Secure Memory with Escape Analysis Considerations ==="] |}
      = (Ok tt, pr2) /\
      (exists m1, mappings (kernel pr2) !! p1 = Some m1 /\
                  List.length (m_bytes m1) = 16%nat) /\
      (forall p, p <> p1 -> mappings (kernel pr2) !! p = mappings (kernel pr) !! p) /\
      trace (kernel pr2) =
        SysMunmap p2 (Some (replicate 16 x00)) :: SysMunlock p2 true :: trace os2).
  { destruct (demo_steps_run p1 p2 (mappings (kernel pr)) (trace os2)
                {| kernel := os2;
                   console := console pr
                     ++ [Text "=== Secure Memory with Escape Analysis Considerations ==="] |}
                buf1 buf2 Hinv eq_refl eq_refl eq_refl eq_refl Hfill)
      as (pr_end & Hsteps & (Hm1 & (m2 & Hm2 & Hl2) & Hbase & HT)).
    erewrite deferred_Ok by exact Hsteps.
    erewrite bind_Ok; cycle 1.
    { apply sys_Ok. apply (close_live buf2 m2); unfold buf2; cbn [addr size];
        [exact Hm2 | lia | lia]. }
    eexists. split; [reflexivity|]. unfold buf2.
    cbn [kernel mappings trace addr size locked].
    split; [|split].
    - destruct Hm1 as (m1 & Hm1 & Hl1). exists m1.
      rewrite lookup_delete_ne by congruence. split; assumption.
    - intros p Hp. destruct (decide (p = p2)) as [->|Hp2'].
      + rewrite lookup_delete_eq. symmetry. exact Hp2.
      + rewrite lookup_delete_ne by congruence. apply Hbase; assumption.
    - rewrite HT. reflexivity. }
  destruct Hbody as (pr2 & Hrun2 & (m1 & Hm1 & Hl1) & Hbase & HT).
  erewrite deferred_Ok; cycle 1.
  { erewrite bind_Ok by (apply sys_Ok; cbn [kernel]; exact Hnew2).
    cbv beta iota. fold buf2. exact Hrun2. }
  erewrite bind_Ok; cycle 1.
  { apply sys_Ok. apply (close_live buf1 m1); unfold buf1; cbn [addr size];
      [exact Hm1 | lia | lia]. }
  unfold ret. eexists. exists p1, p2.
  split; [reflexivity|]. split; [exact Hne|]. unfold buf1.
  cbn [kernel mappings trace addr size locked]. split.
  - apply map_eq. intros p. destruct (decide (p = p1)) as [->|Hp].
    + rewrite lookup_delete_eq. symmetry. exact Hp1.
    + rewrite lookup_delete_ne by congruence. apply Hbase. exact Hp.
  - rewrite HT. reflexivity.
Qed.

Lemma main_releases_both_buffers_witness :
  exists pr' p1 p2,
    main {| kernel := quiet_os; console := [] |} = (Ok tt, pr') /\
    p1 <> p2 /\
    mappings (kernel pr') = mappings quiet_os /\
    trace (kernel pr') =
      SysMunmap p1 (Some (replicate 16 x00)) :: SysMunlock p1 true
      :: SysMunmap p2 (Some (replicate 16 x00)) :: SysMunlock p2 true
      :: SysMlock p2 true :: SysMmap 16 (Some p2)
      :: SysMlock p1 true :: SysMmap 16 (Some p1) :: trace quiet_os.
Proof.
  apply (main_releases_both_buffers {| kernel := quiet_os; console := [] |}).
  - intros k. reflexivity.
  - simpl. lia.
Defined.



End LockedBufferFacts.
